(** * Disaster-response pipeline: ingestion (process_data.py) and
      training front end (train_classifier.py)

    A shallow embedding of the two scripts.  Python values that the scripts
    pass around are modelled directly:

    - a Python [str] is a [string]: the texts covered are those whose
      characters have codes below 256, one [ascii] per character (the
      scripts' own string operations -- split on [";"], the slices [x[:-2]]
      and [x[-1]], [str.replace], [lower], [strip] and the URL pattern --
      are given on them; [lower] and [strip] act on the ASCII letters and
      the ASCII white space, and the statements about them speak of
      these only);
    - a raised exception is the [Raise] branch of [result];
    - a pandas frame is a list of column labels with a list of rows;
    - the SQLite file and the pickle file live in finite maps from paths.

    The natural-language toolkit (sentence splitter, word tokenizer,
    lemmatizer, part-of-speech tagger), the CSV reader and the pickler are
    not part of the repository; they are parameters of the sections that
    use them. *)

From Stdlib Require Import ZArith List Ascii String Bool Lia.
From stdpp Require Import base option list strings gmap.

Import ListNotations.
Local Open Scope string_scope.
Local Open Scope list_scope.

(** ** Python exceptions and results *)

Module Py.

Inductive exn : Type :=
| AttributeError
| KeyError
| IndexError
| ValueError
| TypeError
| FileNotFoundError
| NotADirectoryError
| IsADirectoryError
| PermissionError
| PicklingError.

Inductive result (A : Type) : Type :=
| Ok (a : A)
| Raise (e : exn).

Arguments Ok {A} a.
Arguments Raise {A} e.

Definition bind {A B : Type} (r : result A) (k : A -> result B) : result B :=
  match r with
  | Ok a => k a
  | Raise e => Raise e
  end.

Definition raises {A : Type} (r : result A) : Prop :=
  exists e, r = Raise e.

(** [for x in xs: body x], stopping at the first exception. *)
Fixpoint for_each {A B : Type} (body : A -> result B) (xs : list A)
  : result (list B) :=
  match xs with
  | [] => Ok []
  | x :: rest =>
      bind (body x) (fun y =>
      bind (for_each body rest) (fun ys => Ok (y :: ys)))
  end.

End Py.

Import Py.

Notation "'let!' x ':=' r 'in' k" := (Py.bind r (fun x => k))
  (at level 10, x name, r at level 100, k at level 200,
   format "'[v' 'let!'  x  :=  r  'in' '/' k ']'").

(** ** Python string operations used by the scripts *)

Module Str.

Definition chars (s : string) : list ascii := list_ascii_of_string s.
Definition of_chars (l : list ascii) : string := string_of_list_ascii l.

(** [s.split(sep)] for a one-character separator: never returns the empty
    list; an empty [s] gives one empty field. *)
Fixpoint split_chars (sep : ascii) (l : list ascii) : list (list ascii) :=
  match l with
  | [] => [[]]
  | c :: rest =>
      if Ascii.eqb c sep then [] :: split_chars sep rest
      else match split_chars sep rest with
           | [] => [[c]]
           | field :: fields => (c :: field) :: fields
           end
  end.

Definition split (sep : ascii) (s : string) : list string :=
  map of_chars (split_chars sep (chars s)).

(** [sep.join(fields)] *)
Fixpoint join (sep : string) (fields : list string) : string :=
  match fields with
  | [] => ""
  | [f] => f
  | f :: rest => f +:+ sep +:+ join sep rest
  end.

(** [x[:-2]]: everything but the last two characters. *)
Definition drop_last2 (s : string) : string :=
  of_chars (firstn (List.length (chars s) - 2) (chars s)).

(** [x[-1]] as pandas' [.str[-1]] computes it: the last character, or a
    missing value when the string is empty. *)
Definition last_char (s : string) : option ascii :=
  List.last (map Some (chars s)) None.

(** [int(c)] on a one-character string: a decimal digit or [ValueError].
    Among the characters with codes below 256 the decimal digits are the
    ASCII ones; [int] also takes the digits of other scripts, which these
    strings do not have. *)
Definition int_of_char (c : ascii) : result Z :=
  let n := nat_of_ascii c in
  if (48 <=? n)%nat && (n <=? 57)%nat then Ok (Z.of_nat (n - 48))
  else Raise ValueError.

Fixpoint is_prefix (p s : list ascii) : bool :=
  match p, s with
  | [], _ => true
  | _ :: _, [] => false
  | a :: p', b :: s' => Ascii.eqb a b && is_prefix p' s'
  end.

(** [s.replace(old, new)] for a non-empty [old]: occurrences are taken
    left to right and do not overlap.  [skip] counts the characters of an
    occurrence still to be passed over. *)
Fixpoint replace_from (old new : list ascii) (skip : nat) (l : list ascii)
  : list ascii :=
  match l with
  | [] => []
  | c :: rest =>
      match skip with
      | S k => replace_from old new k rest
      | O =>
          if is_prefix old l
          then new ++ replace_from old new (List.length old - 1) rest
          else c :: replace_from old new 0 rest
      end
  end.

(** With an empty [old] Python puts [new] before every character and at
    the end. *)
Fixpoint intersperse_all (new : list ascii) (l : list ascii) : list ascii :=
  match l with
  | [] => new
  | c :: rest => new ++ c :: intersperse_all new rest
  end.

Definition replace (s old new : string) : string :=
  match chars old with
  | [] => of_chars (intersperse_all (chars new) (chars s))
  | _ :: _ => of_chars (replace_from (chars old) (chars new) 0 (chars s))
  end.

(** Substring test, [sub in s]. *)
Fixpoint contains_chars (sub l : list ascii) : bool :=
  is_prefix sub l ||
  match l with
  | [] => false
  | _ :: rest => contains_chars sub rest
  end.

Definition contains (sub s : string) : bool :=
  contains_chars (chars sub) (chars s).

(** [s.lower()] on the ASCII letters. *)
Definition lower_char (c : ascii) : ascii :=
  let n := nat_of_ascii c in
  if (65 <=? n)%nat && (n <=? 90)%nat then ascii_of_nat (n + 32) else c.

Definition lower (s : string) : string := of_chars (map lower_char (chars s)).

(** [s.strip()]: the white-space characters of [str.isspace] in the ASCII
    range are 9-13 and 28-32. *)
Definition is_space (c : ascii) : bool :=
  let n := nat_of_ascii c in
  ((9 <=? n)%nat && (n <=? 13)%nat) || ((28 <=? n)%nat && (n <=? 32)%nat).

Fixpoint lstrip_chars (l : list ascii) : list ascii :=
  match l with
  | [] => []
  | c :: rest => if is_space c then lstrip_chars rest else l
  end.

Definition strip (s : string) : string :=
  of_chars (rev (lstrip_chars (rev (lstrip_chars (chars s))))).

End Str.

(** ** The URL pattern of [tokenize]

    [url_regex] is
    ['http[s]?://(?:[a-zA-Z]|[0-9]|[$-_@.&+]|[!*\(\),]|(?:%[0-9a-fA-F][0-9a-fA-F]))+'].
    Inside the third class [$-_] is a range (characters 36 to 95). *)

Module Url.

Definition code (c : ascii) : nat := nat_of_ascii c.

Definition between (lo hi : nat) (c : ascii) : bool :=
  (lo <=? code c)%nat && (code c <=? hi)%nat.

Definition one_of (set : string) (c : ascii) : bool :=
  existsb (Ascii.eqb c) (Str.chars set).

(** [[a-zA-Z]] *)
Definition alt_letter (c : ascii) : bool := between 97 122 c || between 65 90 c.
(** [[0-9]] *)
Definition alt_digit (c : ascii) : bool := between 48 57 c.
(** [[$-_@.&+]] *)
Definition alt_range (c : ascii) : bool := between 36 95 c || one_of "@.&+" c.
(** [[!*\(\),]] *)
Definition alt_punct (c : ascii) : bool := one_of "!*()," c.
(** [[0-9a-fA-F]] *)
Definition hex (c : ascii) : bool :=
  between 48 57 c || between 97 102 c || between 65 70 c.

(** The repeated group, greedy, alternatives tried in order; the result is
    the number of characters taken. *)
Fixpoint url_run (l : list ascii) : nat :=
  match l with
  | [] => 0
  | c :: rest =>
      if alt_letter c || alt_digit c || alt_range c || alt_punct c
      then S (url_run rest)
      else
        match rest with
        | h1 :: h2 :: rest' =>
            if Ascii.eqb c "%" && hex h1 && hex h2
            then 3 + url_run rest'
            else 0
        | _ => 0
        end
  end.

(** The pattern anchored at the head of [l]: the length of the match. *)
Definition match_at (l : list ascii) : option nat :=
  let after (scheme : string) :=
    let n := url_run (skipn (String.length scheme) l) in
    if (n =? 0)%nat then None else Some (String.length scheme + n) in
  if Str.is_prefix (Str.chars "https://") l then after "https://"
  else if Str.is_prefix (Str.chars "http://") l then after "http://"
  else None.

(** [re.findall]: matches left to right, without overlap; [skip] counts
    the characters of the last match still to be passed over. *)
Fixpoint findall_from (skip : nat) (l : list ascii) : list (list ascii) :=
  match l with
  | [] => []
  | _ :: rest =>
      match skip with
      | S k => findall_from k rest
      | O =>
          match match_at l with
          | Some n => firstn n l :: findall_from (n - 1) rest
          | None => findall_from 0 rest
          end
      end
  end.

Definition findall (text : string) : list string :=
  map Str.of_chars (findall_from 0 (Str.chars text)).

End Url.

(** ** The part of pandas the scripts rely on *)

Module Pandas.

(** A cell: an integer, a string, or a missing value (NaN / None). *)
Inductive value : Type :=
| VInt (n : Z)
| VStr (s : string)
| VNaN.

Global Instance value_eq_dec : EqDecision value.
Proof. solve_decision. Defined.

Definition is_nan (v : value) : bool :=
  match v with VNaN => true | _ => false end.

Definition is_str (v : value) : bool :=
  match v with VStr _ => true | _ => false end.

(** A frame: the column labels in order and the rows in order, each row
    holding one cell per column.  The row index is not represented: the
    scripts never read it, [concat] is only applied to frames with the
    same index, and [to_sql] is called with [index=False]. *)
Record DataFrame : Type := mkFrame {
  columns : list string;
  rows : list (list value)
}.

Definition rectangular (df : DataFrame) : Prop :=
  Forall (fun r => List.length r = List.length (columns df)) (rows df).

(** A row seen as labelled cells. *)
Definition labelled (cols : list string) (row : list value)
  : list (string * value) := combine cols row.

Definition count_label (name : string) (cols : list string) : nat :=
  List.length (List.filter (String.eqb name) cols).

(** The cell of a row under the (first) column called [name]. *)
Definition cell (name : string) (cols : list string) (row : list value)
  : value :=
  match List.find (fun p => String.eqb name (fst p)) (labelled cols row) with
  | Some p => snd p
  | None => VNaN
  end.

(** [df.name]: the column as a series.  A missing label is an
    [AttributeError]; with a repeated label pandas returns a frame, and
    the [.str] that follows is an [AttributeError] as well. *)
Definition get_attr (name : string) (df : DataFrame) : result (list value) :=
  match count_label name (columns df) with
  | 1%nat => Ok (map (cell name (columns df)) (rows df))
  | _ => Raise AttributeError
  end.

(** [series.str]: only for a column of strings (object dtype).  A column
    that has cells and no string among them has a numeric dtype.  For a
    column without cells the frame does not tell the dtype: the accessor
    is granted here, as it is for the columns of a file with a header
    only, whereas pandas raises [AttributeError] when the empty column is
    numeric; the statements about frames without rows allow for both. *)
Definition str_accessor (series : list value) : result (list value) :=
  match series with
  | [] => Ok []
  | _ :: _ => if existsb is_str series then Ok series
              else Raise AttributeError
  end.

(** A cell of the frame that [.str.split(sep, expand=True)] returns: a
    field, the [None] that fills a row with fewer fields than the widest
    one, or the NaN of a row whose cell was not a string. *)
Inductive field : Type :=
| FStr (s : string)
| FNone
| FNaN.

(** [.str.split(sep, expand=True)]: one row of fields per cell, filled
    with [None] up to the widest row; a cell that is not a string gives a
    row of NaN. *)
Definition split_cell (sep : ascii) (v : value) : option (list string) :=
  match v with
  | VStr s => Some (Str.split sep s)
  | _ => None
  end.

Definition fields_length (fields : option (list string)) : nat :=
  match fields with
  | Some fs => List.length fs
  | None => 0
  end.

Definition pad (width : nat) (fields : option (list string)) : list field :=
  match fields with
  | Some fs => map FStr fs ++ repeat FNone (width - List.length fs)
  | None => repeat FNaN width
  end.

Definition split_expand (sep : ascii) (series : list value)
  : list (list field) :=
  let fields := map (split_cell sep) series in
  let width := list_max (map fields_length fields) in
  map (pad width) fields.

(** [frame.iloc[0,:]] *)
Definition iloc_first {A : Type} (rs : list (list A)) : result (list A) :=
  match rs with
  | [] => Raise IndexError
  | r :: _ => Ok r
  end.

(** [lambda x: x[:-2]] applied to a cell: neither [None] nor NaN can be
    sliced. *)
Definition slice_label (x : field) : result string :=
  match x with
  | FStr s => Ok (Str.drop_last2 s)
  | FNone | FNaN => Raise TypeError
  end.

(** [.str[-1]] followed by [.astype(np.int)] on one cell: [int] of the
    last character; the NaN of an empty field or of a NaN cell is a
    [ValueError], the [None] of a filled-up row a [TypeError]. *)
Definition last_as_int (x : field) : result Z :=
  match x with
  | FStr s =>
      match Str.last_char s with
      | Some c => Str.int_of_char c
      | None => Raise ValueError
      end
  | FNone => Raise TypeError
  | FNaN => Raise ValueError
  end.

(** [frame.drop(name, axis=1)]: every column with that label goes; a
    label that is absent is a [KeyError]. *)
Definition keep_label (name : string) (p : string * value) : bool :=
  negb (String.eqb name (fst p)).

Definition drop_row (name : string) (cols : list string) (row : list value)
  : list value :=
  map snd (List.filter (keep_label name) (labelled cols row)).

Definition drop_cols (name : string) (cols : list string) : list string :=
  List.filter (fun c => negb (String.eqb name c)) cols.

Definition drop (name : string) (df : DataFrame) : result DataFrame :=
  if existsb (String.eqb name) (columns df)
  then Ok {| columns := drop_cols name (columns df);
             rows := map (drop_row name (columns df)) (rows df) |}
  else Raise KeyError.

(** [pd.concat([df, other], axis=1)] for two frames with the same index:
    the columns of [other] are put after those of [df], row by row. *)
Fixpoint zip_rows (rs1 rs2 : list (list value)) : list (list value) :=
  match rs1, rs2 with
  | r1 :: rs1', r2 :: rs2' => (r1 ++ r2) :: zip_rows rs1' rs2'
  | _, _ => []
  end.

Definition concat_columns (df other : DataFrame) : DataFrame :=
  {| columns := columns df ++ columns other;
     rows := zip_rows (rows df) (rows other) |}.

(** [frame.drop_duplicates()]: a row equal in every column to an earlier
    one is removed; the first of them stays. *)
Fixpoint drop_duplicates_from (seen rs : list (list value))
  : list (list value) :=
  match rs with
  | [] => []
  | r :: rest =>
      if bool_decide (r ∈ seen) then drop_duplicates_from seen rest
      else r :: drop_duplicates_from (r :: seen) rest
  end.

Definition drop_duplicates (df : DataFrame) : DataFrame :=
  {| columns := columns df; rows := drop_duplicates_from [] (rows df) |}.

(** [frame.dropna()]: rows with a missing value in any column go. *)
Definition dropna (df : DataFrame) : DataFrame :=
  {| columns := columns df;
     rows := List.filter (fun r => negb (existsb is_nan r)) (rows df) |}.

(** [frame.iloc[:, k:]] *)
Definition iloc_columns_from (k : nat) (df : DataFrame) : DataFrame :=
  {| columns := skipn k (columns df); rows := map (skipn k) (rows df) |}.

(** [frame[name]]: [KeyError] when the label is absent. *)
Definition get_item (name : string) (df : DataFrame) : result (list value) :=
  if existsb (String.eqb name) (columns df)
  then Ok (map (cell name (columns df)) (rows df))
  else Raise KeyError.

(** *** [pd.merge(left, right, on=key)], the default inner join *)

(** Positions of the rows of [keys] that carry the key [k]. *)
Fixpoint matching_from (start : nat) (k : value) (keys : list value)
  : list nat :=
  match keys with
  | [] => []
  | k' :: rest =>
      if bool_decide (k = k') then start :: matching_from (S start) k rest
      else matching_from (S start) k rest
  end.

(** The pairs (left position, right position) of rows with equal keys,
    in the order of the left rows. *)
Fixpoint join_indexers_from (start : nat) (lkeys rkeys : list value)
  : list (nat * nat) :=
  match lkeys with
  | [] => []
  | k :: rest =>
      map (pair start) (matching_from 0 k rkeys)
      ++ join_indexers_from (S start) rest rkeys
  end.

Definition join_indexers (lkeys rkeys : list value) : list (nat * nat) :=
  join_indexers_from 0 lkeys rkeys.

(** Labels present on both sides other than the key get the suffixes
    [_x] and [_y]. *)
Definition suffixed (suffix : string) (key : string) (others : list string)
  (c : string) : string :=
  if negb (String.eqb c key) && existsb (String.eqb c) others
  then c +:+ suffix else c.

Definition merged_row (key : string) (left right : DataFrame)
  (p : nat * nat) : list value :=
  nth (fst p) (rows left) []
  ++ drop_row key (columns right) (nth (snd p) (rows right) []).

(** Of the two key columns one is kept: the left one, in its place, or,
    when the left frame has no rows, the right one.  The pairs of
    [join_indexers] say which rows are joined and how often, in the order
    of the left rows; pandas before 2.2 puts the merged rows of one key
    next to each other, which changes the order of the merged rows and
    not their number.  The keys of the two frames are taken to be of one
    kind (both integers, as the identifiers are). *)
Definition merge (left right : DataFrame) (key : string) : result DataFrame :=
  match count_label key (columns left), count_label key (columns right) with
  | 1%nat, 1%nat =>
      let lkeys := map (cell key (columns left)) (rows left) in
      let rkeys := map (cell key (columns right)) (rows right) in
      Ok {| columns :=
              match rows left with
              | _ :: _ =>
                  map (suffixed "_x" key (columns right)) (columns left)
                  ++ map (suffixed "_y" key (columns left))
                         (drop_cols key (columns right))
              | [] =>
                  map (suffixed "_x" key (columns right))
                      (drop_cols key (columns left))
                  ++ map (suffixed "_y" key (columns left)) (columns right)
              end;
            rows := map (merged_row key left right)
                        (join_indexers lkeys rkeys) |}
  | O, _ | _, O => Raise KeyError
  | _, _ => Raise ValueError
  end.

End Pandas.

Import Pandas.

(** ** process_data.py *)

Module ProcessData.

Section Ingestion.

(** [pd.read_csv]: the parsed file, or the error of an unreadable one. *)
Variable read_csv : string -> result DataFrame.

Definition load_data (messages_filepath categories_filepath : string)
  : result DataFrame :=
  let! messages := read_csv messages_filepath in
  let! categories := read_csv categories_filepath in
  merge messages categories "id".

End Ingestion.

(** The loop [for column in categories] of [clean_data]: with a repeated
    label [categories[column]] is a frame and has no [.str]; otherwise the
    column becomes the integers of its last characters. *)
Definition convert_column (colnames : list string)
  (categories : list (list field)) (jc : nat * string)
  : result (list value) :=
  if (1 <? count_label (snd jc) colnames)%nat then Raise AttributeError
  else for_each (fun r => let! n := last_as_int (nth (fst jc) r FNone) in
                          Ok (VInt n))
                categories.

Definition indexed {A : Type} (l : list A) : list (nat * A) :=
  combine (seq 0 (List.length l)) l.

(** The columns of a frame put side by side, as rows. *)
Definition rows_of_columns (nrows : nat) (cols : list (list value))
  : list (list value) :=
  fold_left (fun rs col => zip_rows rs (map (fun v => [v]) col)) cols
            (repeat [] nrows).

(** Lines 54-76: the frame with [categories] replaced by one integer
    column per label. *)
Definition expand_categories (df : DataFrame) : result DataFrame :=
  let! series := get_attr "categories" df in
  let! series := str_accessor series in
  let categories := split_expand ";" series in
  let! row := iloc_first categories in
  let! category_colnames := for_each slice_label row in
  let! converted :=
    for_each (convert_column category_colnames categories)
             (indexed category_colnames) in
  let categories :=
    {| columns := category_colnames;
       rows := rows_of_columns (List.length (rows df)) converted |} in
  let! df := drop "categories" df in
  Ok (concat_columns df categories).

Definition clean_data (df : DataFrame) : result DataFrame :=
  let! df := expand_categories df in
  let df := drop_duplicates df in
  let! df := drop "original" df in
  Ok (dropna df).

(** An SQLite file holds tables by name; the disk holds such files by
    path.  A path without a file stands for the empty database that
    SQLite creates on first use. *)
Definition open_database (database_filename : string)
  (disk : gmap string (gmap string DataFrame)) : gmap string DataFrame :=
  default ∅ (disk !! database_filename).

(** An integer cell belongs to an integer column of pandas, [int64] or
    [uint64].  SQLite stores signed 64-bit integers, and [to_sql] refuses
    a [uint64] column, which is what a column with an integer beyond that
    range is. *)
Definition fits_int64 (v : value) : bool :=
  match v with
  | VInt n => (- 2 ^ 63 <=? n)%Z && (n <? 2 ^ 63)%Z
  | _ => true
  end.

Definition storable (df : DataFrame) : bool :=
  forallb (forallb fits_int64) (rows df).

(** SQLite compares table names without regard to the case of ASCII
    letters. *)
Definition same_table_name (a b : string) : bool :=
  String.eqb (Str.lower a) (Str.lower b).

Definition has_table (name : string) (db : gmap string DataFrame) : bool :=
  existsb (same_table_name name) (map fst (map_to_list db)).

(** [df.to_sql(name, engine, index=False)]: the column types are worked
    out first (a [uint64] column is a [ValueError]); [if_exists] is left
    at its default ['fail'], so an existing table is a [ValueError] as
    well. *)
Definition to_sql (df : DataFrame) (name : string)
  (db : gmap string DataFrame) : result (gmap string DataFrame) :=
  if negb (storable df) then Raise ValueError
  else if has_table name db then Raise ValueError
  else Ok (<[name := df]> db).

Definition save_data (df : DataFrame) (database_filename : string)
  (disk : gmap string (gmap string DataFrame))
  : result unit * gmap string (gmap string DataFrame) :=
  let engine := open_database database_filename disk in
  match to_sql df "InsertTableName" engine with
  | Ok db => (Ok tt, <[database_filename := db]> disk)
  | Raise e => (Raise e, disk)
  end.

Section Script.

Variable read_csv : string -> result DataFrame.

Definition newline : string := String "010"%char EmptyString.

(** The message of the [else] branch of [main]. *)
Definition usage : string :=
  "Please provide the filepaths of the messages and categories "
  +:+ "datasets as the first and second argument respectively, as "
  +:+ "well as the filepath of the database to save the cleaned data "
  +:+ "to as the third argument. " +:+ newline +:+ newline
  +:+ "Example: python process_data.py "
  +:+ "disaster_messages.csv disaster_categories.csv "
  +:+ "DisasterResponse.db".

(** [main]: [argv] is [sys.argv], the script name included.  The result
    carries what was printed, in order, and the disk; an exception of a
    step ends the script with what was printed so far. *)
Definition main (argv : list string)
  (disk : gmap string (gmap string DataFrame))
  : result unit * list string * gmap string (gmap string DataFrame) :=
  match argv with
  | [_; messages_filepath; categories_filepath; database_filepath] =>
      let out :=
        ["Loading data..." +:+ newline +:+ "    MESSAGES: "
         +:+ messages_filepath +:+ newline +:+ "    CATEGORIES: "
         +:+ categories_filepath] in
      match load_data read_csv messages_filepath categories_filepath with
      | Raise e => (Raise e, out, disk)
      | Ok df =>
          let out := out ++ ["Cleaning data..."] in
          match clean_data df with
          | Raise e => (Raise e, out, disk)
          | Ok df =>
              let out :=
                out ++ ["Saving data..." +:+ newline +:+ "    DATABASE: "
                        +:+ database_filepath] in
              match save_data df database_filepath disk with
              | (Raise e, disk) => (Raise e, out, disk)
              | (Ok _, disk) =>
                  (Ok tt, out ++ ["Cleaned data saved to database!"], disk)
              end
          end
      end
  | _ => (Ok tt, [usage], disk)
  end.

End Script.

End ProcessData.

(** ** train_classifier.py *)

Module TrainClassifier.

(** [pd.read_sql_table(name, engine)]: a missing table is a
    [ValueError]. *)
Definition read_sql_table (name : string) (db : gmap string DataFrame)
  : result DataFrame :=
  match db !! name with
  | Some df => Ok df
  | None => Raise ValueError
  end.

Definition load_data (database_filepath : string)
  (disk : gmap string (gmap string DataFrame))
  : result (list value * DataFrame * list string) :=
  let engine := ProcessData.open_database database_filepath disk in
  let! df := read_sql_table "InsertTableName" engine in
  let! X := get_item "message" df in
  let Y := iloc_columns_from 4 df in
  let category_names := columns Y in
  Ok (X, Y, category_names).

Section Tokenizer.

(** [nltk.tokenize.word_tokenize] and [WordNetLemmatizer().lemmatize]. *)
Variable word_tokenize : string -> list string.
Variable lemmatize : string -> string.

Definition placeholder : string := "urlplaceholder".

(** [for url in detected_urls: text = text.replace(url, "urlplaceholder")] *)
Definition replace_urls (text : string) : string :=
  fold_left (fun text url => Str.replace text url placeholder)
            (Url.findall text) text.

(** [lemmatizer.lemmatize(tok).lower().strip()] *)
Definition clean_tok (tok : string) : string :=
  Str.strip (Str.lower (lemmatize tok)).

Definition tokenize (text : string) : list string :=
  let text := replace_urls text in
  let tokens := word_tokenize text in
  map clean_tok tokens.

(** [nltk.sent_tokenize] and [nltk.pos_tag]. *)
Variable sent_tokenize : string -> list string.
Variable pos_tag : list string -> list (string * string).

(** The loop of [starting_verb] over [sentence_list]; [pos_tags[0]] raises
    [IndexError] on an empty list. *)
Fixpoint starting_verb_loop (sentence_list : list string) : result bool :=
  match sentence_list with
  | [] => Ok false
  | sentence :: rest =>
      match pos_tag (tokenize sentence) with
      | [] => Raise IndexError
      | (first_word, first_tag) :: _ =>
          if existsb (String.eqb first_tag) ["VB"; "VBP"]
             || String.eqb first_word "RT"
          then Ok true
          else starting_verb_loop rest
      end
  end.

Definition starting_verb (text : string) : result bool :=
  starting_verb_loop (sent_tokenize text).

(** [pd.Series(X).apply(self.starting_verb)] *)
Definition transform (X : list string) : result (list bool) :=
  for_each starting_verb X.

End Tokenizer.

(** What a path of the file system leads to: a file with its bytes, or
    a directory.  Paths are the keys as they are written (no [.], [..] or
    links are resolved), and the directory of a path that is in the file
    system is taken to be in it as well. *)
Inductive node : Type :=
| File (content : string)
| Directory.

(** The part of a path after its last ["/"], found on the reversed
    characters, and what is before it, [os.path.dirname]. *)
Fixpoint before_slash (reversed : list ascii) : option (list ascii) :=
  match reversed with
  | [] => None
  | c :: rest => if Ascii.eqb c "/" then Some rest else before_slash rest
  end.

Definition dirname (path : string) : string :=
  match before_slash (rev (Str.chars path)) with
  | Some d => Str.of_chars (rev d)
  | None => ""
  end.

Definition ends_with_slash (path : string) : bool :=
  match rev (Str.chars path) with
  | c :: _ => Ascii.eqb c "/"
  | [] => false
  end.

Section Serializer.

(** The fitted pipeline; [pickle]'s byte string for it, or the exception
    of an object that cannot be pickled; the bytes that [pickle.dump] has
    written when it raises; and whether the process may write a path. *)
Variable Model : Type.
Variable dumps : Model -> result string.
Variable written_before_error : Model -> string.
Variable may_write : string -> bool.

(** [open(filename, 'wb')]: the directory of the file has to exist (a
    path without ["/"] is in the current directory, one with a single
    leading ["/"] in the root), the path must not name a directory, and
    the process must be allowed to write it; then the file is created, or
    the one that is there is emptied. *)
Definition open_wb (filename : string) (files : gmap string node)
  : result (gmap string node) :=
  if String.eqb filename "" then Raise FileNotFoundError
  else
    let! _ :=
      (let parent := dirname filename in
       if String.eqb parent "" then Ok tt
       else match files !! parent with
            | Some Directory => Ok tt
            | Some (File _) => Raise NotADirectoryError
            | None => Raise FileNotFoundError
            end) in
    if ends_with_slash filename then Raise IsADirectoryError
    else match files !! filename with
         | Some Directory => Raise IsADirectoryError
         | _ =>
             if may_write filename
             then Ok (<[filename := File ""]> files)
             else Raise PermissionError
         end.

(** [pickle.dump(model, open(filename, 'wb'))]: the file is opened, and
    emptied, before anything is pickled. *)
Definition save_model (model : Model) (model_filepath : string)
  (files : gmap string node) : result unit * gmap string node :=
  let filename := model_filepath in
  match open_wb filename files with
  | Raise e => (Raise e, files)
  | Ok files =>
      match dumps model with
      | Ok bytes => (Ok tt, <[filename := File bytes]> files)
      | Raise e =>
          (Raise e, <[filename := File (written_before_error model)]> files)
      end
  end.

End Serializer.

End TrainClassifier.

(** A small stand-in toolkit for running the definitions: tokens are the
    maximal runs of non-blank characters, the lemmatizer knows one plural
    and, as WordNet's does, only in lower case. *)
Module Toy.

Fixpoint words_from (cur : list ascii) (l : list ascii) : list (list ascii) :=
  match l with
  | [] => match cur with [] => [] | _ => [rev cur] end
  | c :: rest =>
      if Str.is_space c
      then match cur with
           | [] => words_from [] rest
           | _ => rev cur :: words_from [] rest
           end
      else words_from (c :: cur) rest
  end.

Definition word_tokenize (text : string) : list string :=
  map Str.of_chars (words_from [] (Str.chars text)).

Definition lemmatize (tok : string) : string :=
  if String.eqb tok "dogs" then "dog" else tok.

Definition no_lemmatize (tok : string) : string := tok.

(** One sentence per non-empty line. *)
Definition sent_tokenize (text : string) : list string :=
  List.filter (fun s => negb (String.eqb s "")) (Str.split "010" text).


(** Tags every word "NN" except the imperative "run". *)
Definition pos_tag (toks : list string) : list (string * string) :=
  map (fun w => (w, if String.eqb w "run" then "VB" else "NN")) toks.

End Toy.

(** ** Vocabulary of the statements and sample data *)

Module Spec.

Definition is_int (v : value) : Prop := exists n, v = VInt n.

(** How many rows carry the key [k]. *)
Definition count_key (k : value) (keys : list value) : nat :=
  List.length (List.filter (fun k' => bool_decide (k' = k)) keys).

(** The merged rows built from the left row at position [i], and from the
    right row at position [j]. *)
Definition from_left (i : nat) (pairs : list (nat * nat)) : list (nat * nat) :=
  List.filter (fun p => Nat.eqb (fst p) i) pairs.

Definition from_right (j : nat) (pairs : list (nat * nat)) : list (nat * nat) :=
  List.filter (fun p => Nat.eqb (snd p) j) pairs.

(** One [label:value] field of a category string, for a one-digit value,
    and the whole string. *)
Definition digit_char (d : nat) : ascii := ascii_of_nat (48 + d).

Definition pair_field (label : string) (d : nat) : string :=
  label +:+ ":" +:+ String (digit_char d) "".

Fixpoint pair_fields (labels : list string) (ds : list nat) : list string :=
  match labels, ds with
  | l :: labels', d :: ds' => pair_field l d :: pair_fields labels' ds'
  | _, _ => []
  end.

Definition encode (labels : list string) (ds : list nat) : string :=
  Str.join ";" (pair_fields labels ds).

(** A path that [open(path, 'wb')] accepts: it is not empty and does not
    end in ["/"], its directory is there (or it has none), it does not
    name a directory, and the process may write it. *)
Definition writable_path (may_write : string -> bool) (path : string)
  (files : gmap string TrainClassifier.node) : Prop :=
  path <> ""
  /\ TrainClassifier.ends_with_slash path = false
  /\ (TrainClassifier.dirname path = ""
      \/ files !! TrainClassifier.dirname path
         = Some TrainClassifier.Directory)
  /\ files !! path <> Some TrainClassifier.Directory
  /\ may_write path = true.

(** The test of [starting_verb] on the first tagged token of a sentence. *)
Definition starts_with_verb (tags : list (string * string)) : Prop :=
  exists first_word first_tag rest,
    tags = (first_word, first_tag) :: rest
    /\ (first_tag = "VB" \/ first_tag = "VBP" \/ first_word = "RT").

Definition starts_otherwise (tags : list (string * string)) : Prop :=
  exists first_word first_tag rest,
    tags = (first_word, first_tag) :: rest
    /\ first_tag <> "VB" /\ first_tag <> "VBP" /\ first_word <> "RT".

(** A character that the repeated group of the URL pattern takes on its
    own (the escape [%hh] apart). *)
Definition url_char (c : ascii) : bool :=
  Url.alt_letter c || Url.alt_digit c || Url.alt_range c || Url.alt_punct c.

(** No upper-case ASCII letter; no white space at either end. *)
Definition is_lower (s : string) : Prop :=
  Forall (fun c => ~ (65 <= nat_of_ascii c <= 90)%nat) (Str.chars s).

Definition is_stripped (s : string) : Prop :=
  match Str.chars s with
  | [] => True
  | c :: rest => Str.is_space c = false
                 /\ Str.is_space (List.last rest c) = false
  end.

End Spec.

Module Samples.

Definition sample_table : DataFrame :=
  {| columns := ["id"; "message"; "genre"; "aid"; "water"];
     rows := [[VInt 1; VStr "help"; VStr "direct"; VInt 1; VInt 0]] |}.

Definition other_table : DataFrame :=
  {| columns := ["id"; "message"; "genre"; "aid"; "water"];
     rows := [[VInt 7; VStr "rain"; VStr "news"; VInt 0; VInt 1]] |}.

Definition two_messages_one_id : DataFrame :=
  {| columns := ["id"; "message"; "original"; "genre"; "categories"];
     rows := [[VInt 1; VStr "help"; VNaN; VStr "direct";
               VStr "aid:1;water:0"];
              [VInt 1; VStr "help me"; VNaN; VStr "direct";
               VStr "aid:1;water:0"]] |}.

Definition messages : DataFrame :=
  {| columns := ["id"; "message"; "original"; "genre"];
     rows := [[VInt 1; VStr "help"; VNaN; VStr "direct"];
              [VInt 2; VStr "rain"; VNaN; VStr "news"]] |}.

Definition categories : DataFrame :=
  {| columns := ["id"; "categories"];
     rows := [[VInt 1; VStr "aid:1;water:0"];
              [VInt 1; VStr "aid:0;water:0"];
              [VInt 5; VStr "aid:0;water:1"]] |}.

Definition read_csv (path : string) : result DataFrame :=
  if String.eqb path "disaster_messages.csv" then Ok messages
  else if String.eqb path "disaster_categories.csv" then Ok categories
  else Raise FileNotFoundError.

(** The two sample files joined. *)
Definition merged : DataFrame :=
  {| columns := ["id"; "message"; "original"; "genre"; "categories"];
     rows := [[VInt 1; VStr "help"; VNaN; VStr "direct";
               VStr "aid:1;water:0"];
              [VInt 1; VStr "help"; VNaN; VStr "direct";
               VStr "aid:0;water:0"]] |}.

Definition cleaned : DataFrame :=
  {| columns := ["id"; "message"; "genre"; "aid"; "water"];
     rows := [[VInt 1; VStr "help"; VStr "direct"; VInt 1; VInt 0];
              [VInt 1; VStr "help"; VStr "direct"; VInt 0; VInt 0]] |}.

(** A merged frame of files without the [original] column. *)
Definition without_original : DataFrame :=
  {| columns := ["id"; "message"; "genre"; "categories"];
     rows := [[VInt 1; VStr "help"; VStr "direct"; VStr "aid:1;water:0"]] |}.

End Samples.
Example split_two : Str.split ";" "aid:1;water:0" = ["aid:1"; "water:0"].
Proof. reflexivity. Qed.

Example split_empty : Str.split ";" "" = [""].
Proof. reflexivity. Qed.

Example replace_all : Str.replace "a-b-a" "a" "xy" = "xy-b-xy".
Proof. reflexivity. Qed.

Example findall_example :
  Url.findall "see http://example.com/path now" = ["http://example.com/path"].
Proof. reflexivity. Qed.

Example findall_upper : Url.findall "HTTP://EXAMPLE.COM" = [].
Proof. reflexivity. Qed.

(** ** Facts about the string operations *)

Module StrFacts.
Import Str.

Lemma chars_of_chars (l : list ascii) : chars (of_chars l) = l.
Proof. apply list_ascii_of_string_of_list_ascii. Qed.

Lemma of_chars_chars (s : string) : of_chars (chars s) = s.
Proof. apply string_of_list_ascii_of_string. Qed.

Lemma is_prefix_refl_app (p x : list ascii) : is_prefix p (p ++ x) = true.
Proof.
  induction p as [|a p IH]; simpl; [reflexivity|].
  rewrite Ascii.eqb_refl. exact IH.
Qed.

Lemma is_prefix_firstn (n : nat) (l : list ascii) :
  is_prefix (firstn n l) l = true.
Proof.
  rewrite <- (firstn_skipn n l) at 2. apply is_prefix_refl_app.
Qed.

Lemma is_prefix_contains (sub l : list ascii) :
  is_prefix sub l = true -> contains_chars sub l = true.
Proof. intros H. destruct l; simpl in *; rewrite H; reflexivity. Qed.

Lemma contains_chars_cons (sub : list ascii) (c : ascii) (l : list ascii) :
  contains_chars sub l = true -> contains_chars sub (c :: l) = true.
Proof. intros H. simpl. rewrite H. apply orb_true_r. Qed.

Lemma contains_chars_app_r (sub x y : list ascii) :
  contains_chars sub y = true -> contains_chars sub (x ++ y) = true.
Proof.
  intros H. induction x as [|c x IH]; simpl app; [exact H|].
  apply contains_chars_cons, IH.
Qed.

Lemma contains_chars_head (sub x : list ascii) :
  contains_chars sub (sub ++ x) = true.
Proof. apply is_prefix_contains, is_prefix_refl_app. Qed.

Lemma replace_from_skip_all (old new : list ascii) (l : list ascii) (k : nat) :
  (List.length l <= k)%nat -> replace_from old new k l = [].
Proof.
  revert k. induction l as [|c l IH]; intros k Hk; simpl in *; [reflexivity|].
  destruct k as [|k]; [lia|]. apply IH. lia.
Qed.

(** An occurrence of [old] leaves [new] in the result. *)
Lemma replace_from_occurs (old new l : list ascii) :
  contains_chars old l = true ->
  old <> [] ->
  contains_chars new (replace_from old new 0 l) = true.
Proof.
  intros H Hne. induction l as [|c l IH].
  - destruct old; [congruence|discriminate].
  - cbn [replace_from].
    destruct (is_prefix old (c :: l)) eqn:Hp.
    + apply contains_chars_head.
    + apply contains_chars_cons, IH.
      cbn [contains_chars] in H. rewrite Hp in H. exact H.
Qed.

(** Without an occurrence nothing changes. *)
Lemma replace_from_absent (old new l : list ascii) :
  contains_chars old l = false -> replace_from old new 0 l = l.
Proof.
  induction l as [|c l IH]; intros H; [reflexivity|].
  cbn [replace_from]. cbn [contains_chars] in H.
  apply orb_false_elim in H as [Hp Hrest].
  rewrite Hp. f_equal. apply IH, Hrest.
Qed.

Lemma intersperse_all_head (new l : list ascii) :
  contains_chars new (intersperse_all new l) = true.
Proof.
  destruct l as [|c l]; simpl intersperse_all.
  - rewrite <- (app_nil_r new) at 2. apply contains_chars_head.
  - apply contains_chars_head.
Qed.

Lemma replace_occurs (s old new : string) :
  contains old s = true -> contains new (replace s old new) = true.
Proof.
  unfold contains, replace. intros H.
  destruct (chars old) as [|a old'] eqn:Hold; rewrite chars_of_chars.
  - apply intersperse_all_head.
  - apply replace_from_occurs; [exact H|discriminate].
Qed.

Lemma replace_absent (s old new : string) :
  contains old s = false -> replace s old new = s.
Proof.
  unfold contains, replace. intros H.
  destruct (chars old) as [|a old'] eqn:Hold.
  - destruct (chars s); discriminate.
  - rewrite replace_from_absent by exact H. apply of_chars_chars.
Qed.

(** Replacing by [new] never loses an occurrence of [new]. *)
Lemma replace_keeps (s old new : string) :
  contains new s = true -> contains new (replace s old new) = true.
Proof.
  intros H. destruct (contains old s) eqn:Hold.
  - apply replace_occurs, Hold.
  - rewrite replace_absent by exact Hold. exact H.
Qed.

Lemma is_prefix_refl (p : list ascii) : is_prefix p p = true.
Proof.
  induction p as [|a p IH]; simpl; [reflexivity|].
  rewrite Ascii.eqb_refl. exact IH.
Qed.

(** Replacing the whole string leaves exactly [new]. *)
Lemma replace_whole (s new : string) :
  s <> "" -> replace s s new = new.
Proof.
  intros Hne. unfold replace.
  destruct (chars s) as [|c l] eqn:Hs.
  - exfalso. apply Hne. rewrite <- (of_chars_chars s), Hs. reflexivity.
  - cbn [replace_from]. rewrite is_prefix_refl.
    rewrite replace_from_skip_all by (simpl; lia).
    rewrite app_nil_r. apply of_chars_chars.
Qed.

End StrFacts.

(** ** The URL replacement of [tokenize] *)

Import Samples.

Module UrlFacts.
Import Str StrFacts TrainClassifier.

Lemma findall_from_skip_all (l : list ascii) (k : nat) :
  (List.length l <= k)%nat -> Url.findall_from k l = [].
Proof.
  revert k. induction l as [|c l IH]; intros k Hk; simpl in *; [reflexivity|].
  destruct k as [|k]; [lia|]. apply IH. lia.
Qed.

(** The first match reported by [findall] occurs in the text. *)
Lemma findall_from_head (l : list ascii) (k : nat) (u : list ascii)
  (us : list (list ascii)) :
  Url.findall_from k l = u :: us -> contains_chars u l = true.
Proof.
  revert k. induction l as [|c l IH]; intros k H; [discriminate|].
  cbn [Url.findall_from] in H. destruct k as [|k].
  - destruct (Url.match_at (c :: l)) as [n|] eqn:Hm.
    + injection H as Hu _. subst u.
      apply is_prefix_contains, is_prefix_firstn.
    + apply contains_chars_cons, (IH 0%nat), H.
  - apply contains_chars_cons, (IH k), H.
Qed.

Lemma fold_replace_keeps (urls : list string) (text : string) :
  contains placeholder text = true ->
  contains placeholder
    (fold_left (fun text url => replace text url placeholder) urls text)
  = true.
Proof.
  revert text. induction urls as [|u urls IH]; intros text H; simpl.
  - exact H.
  - apply IH, replace_keeps, H.
Qed.

(** Once a URL has been detected the text handed on carries the
    placeholder. *)
Lemma replace_urls_contains (text : string) :
  Url.findall text <> [] ->
  contains placeholder (replace_urls text) = true.
Proof.
  unfold replace_urls, Url.findall. intros H.
  destruct (Url.findall_from 0 (chars text)) as [|u us] eqn:Hf;
    [contradiction|].
  cbn [map fold_left]. apply fold_replace_keeps, replace_occurs.
  unfold contains. rewrite chars_of_chars.
  exact (findall_from_head _ _ _ _ Hf).
Qed.

Lemma length_chars (s : string) : List.length (chars s) = String.length s.
Proof.
  unfold chars. induction s as [|c s IH]; simpl; [reflexivity|].
  f_equal. exact IH.
Qed.

(** A text that is one match from end to end becomes the placeholder. *)
Lemma replace_urls_whole (text : string) :
  Url.match_at (chars text) = Some (String.length text) ->
  replace_urls text = placeholder.
Proof.
  intros Hm. unfold replace_urls, Url.findall.
  destruct (chars text) as [|c l] eqn:Hc; [discriminate|].
  cbn [Url.findall_from]. rewrite Hm.
  rewrite <- length_chars, Hc.
  rewrite firstn_all.
  rewrite findall_from_skip_all by (simpl; lia).
  cbn [map fold_left]. rewrite <- Hc, of_chars_chars.
  apply replace_whole. intros ->. discriminate.
Qed.

End UrlFacts.

(** ** [tokenize] *)

(** C9, as stated, fails: the URL pattern matches inside
    ["xhttp://example.com/path"], yet the only token returned is
    ["xurlplaceholder"]; the placeholder is glued to the preceding letter
    and is not a token.  And in ["http://b http://http://b"] the first
    replacement leaves ["http://urlplaceholder"], on which the pattern
    matches again. *)
Lemma tokenize_placeholder_not_a_token :
  Url.findall "xhttp://example.com/path" = ["http://example.com/path"]
  /\ TrainClassifier.tokenize Toy.word_tokenize Toy.no_lemmatize
       "xhttp://example.com/path" = ["xurlplaceholder"]
  /\ ~ In TrainClassifier.placeholder
        (TrainClassifier.tokenize Toy.word_tokenize Toy.no_lemmatize
           "xhttp://example.com/path")
  /\ TrainClassifier.replace_urls "http://b http://http://b"
     = "urlplaceholder http://urlplaceholder"
  /\ Url.findall (TrainClassifier.replace_urls "http://b http://http://b")
     = ["http://urlplaceholder"].
Proof.
  repeat split; try reflexivity.
  vm_compute. intros [H|[]]. discriminate H.
Qed.

(** C9 (amended): [tokenize] is a function of its text (the same text
    gives the same tokens), its tokens are the cleaned tokens of the text
    after URL replacement, and whenever the pattern matches somewhere in
    the text, the text handed to the word tokenizer contains the
    placeholder.  When the whole text is one match, as
    [http://example.com/path] is, that text is exactly the placeholder,
    and the token sequence is the placeholder alone provided the word
    tokenizer and the lemmatizer leave that word as it is. *)
Theorem tokenize_url_placeholder
  (word_tokenize : string -> list string) (lemmatize : string -> string)
  (text : string) :
  Url.findall text <> [] ->
  (forall text', text' = text ->
     TrainClassifier.tokenize word_tokenize lemmatize text'
     = TrainClassifier.tokenize word_tokenize lemmatize text)
  /\ TrainClassifier.tokenize word_tokenize lemmatize text
     = map (TrainClassifier.clean_tok lemmatize)
           (word_tokenize (TrainClassifier.replace_urls text))
  /\ Str.contains TrainClassifier.placeholder
       (TrainClassifier.replace_urls text) = true
  /\ (Url.match_at (Str.chars text) = Some (String.length text) ->
      TrainClassifier.replace_urls text = TrainClassifier.placeholder
      /\ (word_tokenize TrainClassifier.placeholder
            = [TrainClassifier.placeholder] ->
          lemmatize TrainClassifier.placeholder = TrainClassifier.placeholder ->
          TrainClassifier.tokenize word_tokenize lemmatize text
          = [TrainClassifier.placeholder])).
Proof.
  intros Hurl. split; [|split; [|split]].
  - intros text' ->. reflexivity.
  - reflexivity.
  - apply UrlFacts.replace_urls_contains, Hurl.
  - intros Hm. pose proof (UrlFacts.replace_urls_whole text Hm) as Hw.
    split; [exact Hw|]. intros Hwt Hlem.
    unfold TrainClassifier.tokenize. rewrite Hw, Hwt. cbn [map].
    unfold TrainClassifier.clean_tok. rewrite Hlem. reflexivity.
Qed.

Lemma tokenize_url_placeholder_witness :
  Url.findall "http://example.com/path" <> []
  /\ TrainClassifier.tokenize Toy.word_tokenize Toy.lemmatize
       "http://example.com/path" = ["urlplaceholder"].
Proof.
  assert (H : Url.findall "http://example.com/path" <> []) by discriminate.
  split; [exact H|].
  destruct (tokenize_url_placeholder Toy.word_tokenize Toy.lemmatize
              "http://example.com/path" H) as (_ & _ & _ & Hwhole).
  destruct (Hwhole eq_refl) as [_ Htok].
  apply Htok; reflexivity.
Defined.

(** C8, as stated, fails: the lemmatizer runs before the lowering, so
    ["Dogs"] is only lowered, and tokenizing the result ["dogs"] once more
    lemmatizes it to ["dog"]. *)
Lemma tokenize_not_idempotent :
  let tokenize := TrainClassifier.tokenize Toy.word_tokenize Toy.lemmatize in
  tokenize "Dogs" = ["dogs"]
  /\ Str.join " " (tokenize "Dogs") = "dogs"
  /\ tokenize (Str.join " " (tokenize "Dogs")) = ["dog"]
  /\ tokenize (Str.join " " (tokenize "Dogs")) <> tokenize "Dogs".
Proof. repeat split; try reflexivity. discriminate. Qed.


(** ** [StartingVerbExtractor] *)

Module ExtractorFacts.
Import TrainClassifier.

Section WithToolkit.

Variable word_tokenize : string -> list string.
Variable lemmatize : string -> string.
Variable sent_tokenize : string -> list string.
Variable pos_tag : list string -> list (string * string).

Let tokenize := tokenize word_tokenize lemmatize.
Let loop := starting_verb_loop word_tokenize lemmatize pos_tag.

(** The loop returns when every sentence it may look at has a first
    tagged word. *)
Lemma starting_verb_loop_total (sentence_list : list string) :
  (forall s, In s sentence_list -> pos_tag (tokenize s) <> []) ->
  exists b, loop sentence_list = Ok b.
Proof.
  induction sentence_list as [|s rest IH]; intros Htags.
  - exists false. reflexivity.
  - cbn [loop starting_verb_loop].
    destruct (pos_tag (TrainClassifier.tokenize word_tokenize lemmatize s))
      as [|[w t] tags] eqn:Htag.
    + exfalso. apply (Htags s); [left; reflexivity|exact Htag].
    + destruct (existsb (String.eqb t) ["VB"; "VBP"] || String.eqb w "RT").
      * exists true. reflexivity.
      * apply IH. intros s' Hin. apply Htags. right. exact Hin.
Qed.

(** A sentence without tokens, when the loop reaches it, is an
    [IndexError]. *)
Lemma starting_verb_loop_no_tags (s : string) (rest : list string) :
  pos_tag (tokenize s) = [] -> loop (s :: rest) = Raise IndexError.
Proof.
  intros H. cbn [loop starting_verb_loop].
  unfold tokenize in H. rewrite H. reflexivity.
Qed.

End WithToolkit.

End ExtractorFacts.

(** [pos_tags[0]] is not guarded: were a sentence splitter to hand on a
    blank line as a sentence, the sentence would have no tokens, the
    tagger would return the empty list and [transform] would raise
    [IndexError].  (The stand-in splitter does; the splitter of the
    toolkit returns no sentence for a blank text.) *)
Example transform_index_error_on_empty_sentence :
  Toy.sent_tokenize "   " = ["   "]
  /\ TrainClassifier.tokenize Toy.word_tokenize Toy.lemmatize "   " = []
  /\ TrainClassifier.transform Toy.word_tokenize Toy.lemmatize
       Toy.sent_tokenize Toy.pos_tag ["   "] = Raise IndexError.
Proof. repeat split. Qed.

(** For every sequence of texts in which each sentence has at least one
    tagged token, [transform] returns one boolean per text and raises
    nothing; the boolean of a text without sentences is false. *)
Lemma transform_total_when_sentences_tagged
  (word_tokenize : string -> list string) (lemmatize : string -> string)
  (sent_tokenize : string -> list string)
  (pos_tag : list string -> list (string * string)) (X : list string) :
  (forall text s, In text X -> In s (sent_tokenize text) ->
     pos_tag (TrainClassifier.tokenize word_tokenize lemmatize s) <> []) ->
  exists bs,
    TrainClassifier.transform word_tokenize lemmatize sent_tokenize pos_tag X
      = Ok bs
    /\ Forall2
         (fun text b =>
            TrainClassifier.starting_verb word_tokenize lemmatize
              sent_tokenize pos_tag text = Ok b
            /\ (sent_tokenize text = [] -> b = false))
         X bs.
Proof.
  induction X as [|text X IH]; intros Htags.
  - exists []. split; [reflexivity|constructor].
  - destruct IH as (bs & Hbs & Hall).
    { intros text' s Hin. apply Htags. right. exact Hin. }
    destruct (ExtractorFacts.starting_verb_loop_total word_tokenize lemmatize
                pos_tag (sent_tokenize text)) as [b Hb].
    { intros s Hin. apply (Htags text); [left; reflexivity|exact Hin]. }
    exists (b :: bs). split.
    + unfold TrainClassifier.transform in *. cbn [for_each].
      unfold TrainClassifier.starting_verb at 1. rewrite Hb. cbn [bind].
      rewrite Hbs. reflexivity.
    + constructor; [|exact Hall]. split; [exact Hb|].
      intros Hnone. rewrite Hnone in Hb. cbn in Hb. congruence.
Qed.

Lemma transform_total_when_sentences_tagged_witness :
  exists bs,
    TrainClassifier.transform Toy.word_tokenize Toy.lemmatize
      Toy.sent_tokenize Toy.pos_tag
      ["Run to the store."; "The store is open."; ""] = Ok bs
    /\ Forall2
         (fun text b =>
            TrainClassifier.starting_verb Toy.word_tokenize Toy.lemmatize
              Toy.sent_tokenize Toy.pos_tag text = Ok b
            /\ (Toy.sent_tokenize text = [] -> b = false))
         ["Run to the store."; "The store is open."; ""] bs.
Proof.
  apply (transform_total_when_sentences_tagged Toy.word_tokenize Toy.lemmatize
           Toy.sent_tokenize Toy.pos_tag).
  intros text s Htext Hs.
  repeat (destruct Htext as [<-|Htext];
          [vm_compute in Hs;
           repeat (destruct Hs as [<-|Hs]; [discriminate|]); destruct Hs|]).
  destruct Htext.
Defined.

Module ToolkitFacts.
Import Str StrFacts TrainClassifier.






Section Sentences.

Variable word_tokenize : string -> list string.
Variable lemmatize : string -> string.

Hypothesis placeholder_is_a_word :
  forall t, contains placeholder t = true -> word_tokenize t <> [].


End Sentences.

End ToolkitFacts.



Example starting_verb_examples :
  let sv := TrainClassifier.starting_verb Toy.word_tokenize Toy.lemmatize
              Toy.sent_tokenize Toy.pos_tag in
  sv "Run to the store." = Ok true
  /\ sv "The store is open." = Ok false
  /\ sv "" = Ok false.
Proof. repeat split. Qed.

(** ** The persisted table and the pickled model *)

Module StoreFacts.
Import ProcessData.

Lemma has_table_lookup (name : string) (db : gmap string DataFrame)
  (df : DataFrame) :
  db !! name = Some df -> has_table name db = true.
Proof.
  intros H. unfold has_table. apply existsb_exists. exists name. split.
  - apply in_map_iff. exists (name, df). split; [reflexivity|].
    apply list_elem_of_In, elem_of_map_to_list. exact H.
  - unfold same_table_name. apply String.eqb_refl.
Qed.

Lemma has_table_absent (name : string) (db : gmap string DataFrame) :
  has_table name db = false -> db !! name = None.
Proof.
  intros H. destruct (db !! name) as [df|] eqn:Hdb; [|reflexivity].
  rewrite (has_table_lookup _ _ _ Hdb) in H. discriminate.
Qed.

Lemma to_sql_existing (df stored : DataFrame) (name : string)
  (db : gmap string DataFrame) :
  db !! name = Some stored -> to_sql df name db = Raise ValueError.
Proof.
  intros H. unfold to_sql. rewrite (has_table_lookup _ _ _ H).
  destruct (negb (storable df)); reflexivity.
Qed.

Lemma to_sql_fresh (df : DataFrame) (name : string)
  (db : gmap string DataFrame) :
  storable df = true -> has_table name db = false ->
  to_sql df name db = Ok (<[name := df]> db).
Proof. intros Hs Hn. unfold to_sql. rewrite Hs, Hn. reflexivity. Qed.

Lemma to_sql_ok (df : DataFrame) (name : string)
  (db db' : gmap string DataFrame) :
  to_sql df name db = Ok db' ->
  storable df = true /\ has_table name db = false
  /\ db' = <[name := df]> db.
Proof.
  unfold to_sql. destruct (storable df); [|discriminate].
  destruct (has_table name db); [discriminate|].
  intros H. injection H as <-. repeat split.
Qed.

Lemma to_sql_raises_value_error (df : DataFrame) (name : string)
  (db : gmap string DataFrame) (e : exn) :
  to_sql df name db = Raise e -> e = ValueError.
Proof.
  unfold to_sql. destruct (storable df); cbn [negb].
  - destruct (has_table name db); [|discriminate].
    intros H. injection H as <-. reflexivity.
  - intros H. injection H as <-. reflexivity.
Qed.

End StoreFacts.

(** C4: when the destination already holds a table of the persisted
    name, [save_data] fails with the duplicate-table error ([ValueError])
    and the disk is left as it was: the stored table, its rows included,
    is neither appended to nor replaced. *)
Theorem save_data_existing_table_fails
  (df stored : DataFrame) (database_filename : string)
  (disk : gmap string (gmap string DataFrame))
  (db : gmap string DataFrame) :
  disk !! database_filename = Some db ->
  db !! "InsertTableName" = Some stored ->
  ProcessData.save_data df database_filename disk = (Raise ValueError, disk)
  /\ ProcessData.open_database database_filename
       (snd (ProcessData.save_data df database_filename disk))
     !! "InsertTableName" = Some stored.
Proof.
  intros Hdisk Hdb.
  assert (Hsave : ProcessData.save_data df database_filename disk
                  = (Raise ValueError, disk)).
  { unfold ProcessData.save_data, ProcessData.open_database.
    rewrite Hdisk. simpl.
    rewrite (StoreFacts.to_sql_existing df stored _ _ Hdb). reflexivity. }
  split; [exact Hsave|].
  rewrite Hsave. cbn [snd]. unfold ProcessData.open_database.
  rewrite Hdisk. exact Hdb.
Qed.

Lemma save_data_existing_table_fails_witness :
  let disk : gmap string (gmap string DataFrame) :=
    {[ "DisasterResponse.db" := {[ "InsertTableName" := sample_table ]} ]} in
  ProcessData.save_data other_table "DisasterResponse.db" disk
    = (Raise ValueError, disk)
  /\ ProcessData.open_database "DisasterResponse.db"
       (snd (ProcessData.save_data other_table "DisasterResponse.db" disk))
     !! "InsertTableName" = Some sample_table.
Proof.
  intros disk.
  apply (save_data_existing_table_fails other_table sample_table
           "DisasterResponse.db" disk {[ "InsertTableName" := sample_table ]}).
  - reflexivity.
  - reflexivity.
Defined.

(** On a destination without a table of that name, a frame whose
    integers fit is written. *)
Lemma save_data_fresh (df : DataFrame) (database_filename : string)
  (disk : gmap string (gmap string DataFrame)) :
  ProcessData.storable df = true ->
  ProcessData.has_table "InsertTableName"
    (ProcessData.open_database database_filename disk) = false ->
  exists disk',
    ProcessData.save_data df database_filename disk = (Ok tt, disk')
    /\ ProcessData.open_database database_filename disk' !! "InsertTableName"
       = Some df.
Proof.
  intros Hfits Hnone. unfold ProcessData.save_data.
  rewrite (StoreFacts.to_sql_fresh _ _ _ Hfits Hnone).
  eexists. split; [reflexivity|].
  unfold ProcessData.open_database. rewrite lookup_insert_eq. simpl.
  apply lookup_insert_eq.
Qed.

(** C10, as stated, fails: [open(filename, 'wb')] raises for a path whose
    directory does not exist, and nothing is written. *)
Lemma save_model_missing_directory :
  TrainClassifier.save_model nat (fun _ => Ok "bytes") (fun _ => "")
    (fun _ => true) 0%nat "models/classifier.pkl" ∅
  = (Raise FileNotFoundError, ∅).
Proof. reflexivity. Qed.

(** C10 (amended): [save_model] does not fail because the destination
    exists.  For every path that can be opened for writing, whether or
    not a file is there already, the file is emptied and, when the model
    pickles, afterwards holds exactly the pickled model; when pickling
    raises, the exception is passed on and the file is left with what was
    written until then, the old content gone.  No other path is
    touched. *)
Theorem save_model_overwrites
  (Model : Type) (dumps : Model -> result string)
  (written_before_error : Model -> string) (may_write : string -> bool)
  (model : Model) (model_filepath : string)
  (files : gmap string TrainClassifier.node) :
  Spec.writable_path may_write model_filepath files ->
  exists files',
    snd (TrainClassifier.save_model Model dumps written_before_error
           may_write model model_filepath files) = files'
    /\ (forall other, other <> model_filepath ->
          files' !! other = files !! other)
    /\ (forall bytes, dumps model = Ok bytes ->
          TrainClassifier.save_model Model dumps written_before_error
            may_write model model_filepath files = (Ok tt, files')
          /\ files' !! model_filepath = Some (TrainClassifier.File bytes))
    /\ (forall e, dumps model = Raise e ->
          TrainClassifier.save_model Model dumps written_before_error
            may_write model model_filepath files = (Raise e, files')
          /\ files' !! model_filepath
             = Some (TrainClassifier.File (written_before_error model))).
Proof.
  intros (Hname & Hslash & Hdir & Hnode & Hmay).
  assert (Hopen : TrainClassifier.open_wb may_write model_filepath files
                  = Ok (<[model_filepath := TrainClassifier.File ""]> files)).
  { unfold TrainClassifier.open_wb.
    apply String.eqb_neq in Hname. rewrite Hname, Hslash, Hmay.
    assert (Hparent :
              (if String.eqb (TrainClassifier.dirname model_filepath) ""
               then Ok tt
               else match files !! TrainClassifier.dirname model_filepath with
                    | Some TrainClassifier.Directory => Ok tt
                    | Some (TrainClassifier.File _) =>
                        Raise NotADirectoryError
                    | None => Raise FileNotFoundError
                    end) = Ok tt).
    { destruct Hdir as [Hd|Hd]; rewrite Hd; [reflexivity|].
      destruct (String.eqb (TrainClassifier.dirname model_filepath) "");
        reflexivity. }
    rewrite Hparent. cbn [bind].
    destruct (files !! model_filepath) as [[content|]|];
      [reflexivity|congruence|reflexivity]. }
  unfold TrainClassifier.save_model. rewrite Hopen.
  destruct (dumps model) as [bytes|e]; cbn [snd];
    (eexists; split; [reflexivity|]); (split; [|split]).
  - intros other Hne. rewrite !lookup_insert_ne by congruence. reflexivity.
  - intros b Hb. injection Hb as <-.
    split; [reflexivity|apply lookup_insert_eq].
  - intros e He. discriminate He.
  - intros other Hne. rewrite !lookup_insert_ne by congruence. reflexivity.
  - intros b Hb. discriminate Hb.
  - intros e' He. injection He as <-.
    split; [reflexivity|apply lookup_insert_eq].
Qed.

Lemma save_model_overwrites_witness :
  TrainClassifier.save_model nat (fun _ => Ok "new bytes") (fun _ => "")
    (fun _ => true) 0%nat "classifier.pkl"
    {[ "classifier.pkl" := TrainClassifier.File "old bytes" ]}
  = (Ok tt, {[ "classifier.pkl" := TrainClassifier.File "new bytes" ]}).
Proof.
  destruct (save_model_overwrites nat (fun _ => Ok "new bytes")
              (fun _ => "") (fun _ => true) 0%nat "classifier.pkl"
              {[ "classifier.pkl" := TrainClassifier.File "old bytes" ]})
    as (files' & Hsnd & _ & Hok & _).
  - repeat split; [discriminate|left; reflexivity|
                   rewrite lookup_singleton_eq; discriminate].
  - destruct (Hok "new bytes" eq_refl) as [Hsave _].
    rewrite Hsave. f_equal. rewrite <- Hsnd. cbn [snd].
    unfold TrainClassifier.save_model, TrainClassifier.open_wb. cbn.
    rewrite lookup_singleton_eq. cbn.
    rewrite insert_insert_eq, insert_singleton_eq. reflexivity.
Defined.

(** A path that cannot be opened makes [save_model] raise and changes
    nothing. *)
Lemma save_model_refused (Model : Type) (dumps : Model -> result string)
  (written_before_error : Model -> string) (may_write : string -> bool)
  (model : Model) (model_filepath : string)
  (files : gmap string TrainClassifier.node) :
  ~ Spec.writable_path may_write model_filepath files ->
  exists e,
    TrainClassifier.save_model Model dumps written_before_error may_write
      model model_filepath files = (Raise e, files).
Proof.
  intros Hno. unfold TrainClassifier.save_model.
  destruct (TrainClassifier.open_wb may_write model_filepath files)
    as [files'|e] eqn:Hopen; [|eauto].
  exfalso. apply Hno. unfold TrainClassifier.open_wb in Hopen.
  destruct (String.eqb model_filepath "") eqn:Hname; [discriminate|].
  apply String.eqb_neq in Hname.
  unfold Spec.writable_path.
  destruct (String.eqb (TrainClassifier.dirname model_filepath) "")
    eqn:Hparent.
  - apply String.eqb_eq in Hparent. cbn [bind] in Hopen.
    destruct (TrainClassifier.ends_with_slash model_filepath);
      [discriminate|].
    destruct (files !! model_filepath) as [[content|]|];
      try discriminate;
      destruct (may_write model_filepath); try discriminate;
      repeat split; auto; discriminate.
  - destruct (files !! TrainClassifier.dirname model_filepath)
      as [[content|]|] eqn:Hdir; try discriminate.
    cbn [bind] in Hopen.
    destruct (TrainClassifier.ends_with_slash model_filepath);
      [discriminate|].
    destruct (files !! model_filepath) as [[content|]|];
      try discriminate;
      destruct (may_write model_filepath); try discriminate;
      repeat split; auto; discriminate.
Qed.

(** ** The training loader *)

(** What [load_data] returns on a stored table: the message column, and as
    labels whatever stands from the fifth column on. *)
Lemma load_data_columns (database_filepath : string)
  (disk : gmap string (gmap string DataFrame)) (df : DataFrame) :
  ProcessData.open_database database_filepath disk !! "InsertTableName"
    = Some df ->
  existsb (String.eqb "message") (columns df) = true ->
  TrainClassifier.load_data database_filepath disk
  = Ok (map (cell "message" (columns df)) (rows df),
        iloc_columns_from 4 df,
        skipn 4 (columns df)).
Proof.
  intros Hdb Hmsg.
  unfold TrainClassifier.load_data, TrainClassifier.read_sql_table.
  rewrite Hdb. cbn [bind]. unfold get_item. rewrite Hmsg. reflexivity.
Qed.

(** On a cleaned table (identifier, message, genre, then the labels) the
    first label is not among the label columns returned. *)
Lemma load_data_skips_first_label (database_filepath : string)
  (disk : gmap string (gmap string DataFrame)) (df : DataFrame)
  (first : string) (labels : list string) :
  ProcessData.open_database database_filepath disk !! "InsertTableName"
    = Some df ->
  columns df = ["id"; "message"; "genre"] ++ first :: labels ->
  exists X Y,
    TrainClassifier.load_data database_filepath disk = Ok (X, Y, labels)
    /\ columns Y = labels.
Proof.
  intros Hdb Hcols.
  rewrite (load_data_columns _ _ df Hdb) by (rewrite Hcols; reflexivity).
  rewrite Hcols. cbn [skipn app]. do 2 eexists. split; [reflexivity|].
  cbn. rewrite Hcols. reflexivity.
Qed.

(** C2 (the code misses it): the table written by the ingestion job has
    the label columns [aid] and [water] after identifier, message and
    genre, yet the loader returns [water] alone as label matrix and label
    names, because the offset 4 still counts the dropped [original]
    column. *)
Theorem load_data_drops_first_label :
  let merged :=
    {| columns := ["id"; "message"; "original"; "genre"; "categories"];
       rows := [[VInt 1; VStr "help"; VNaN; VStr "direct";
                 VStr "aid:1;water:0"]] |} in
  exists cleaned disk,
    ProcessData.clean_data merged = Ok cleaned
    /\ columns cleaned = ["id"; "message"; "genre"; "aid"; "water"]
    /\ ProcessData.save_data cleaned "DisasterResponse.db" ∅ = (Ok tt, disk)
    /\ TrainClassifier.load_data "DisasterResponse.db" disk
       = Ok ([VStr "help"],
             {| columns := ["water"]; rows := [[VInt 0]] |},
             ["water"]).
Proof.
  intros merged.
  exists sample_table,
    (<["DisasterResponse.db" := <["InsertTableName" := sample_table]> ∅]> ∅).
  split; [vm_compute; reflexivity|].
  split; [reflexivity|].
  split; [reflexivity|].
  rewrite (load_data_columns _ _ sample_table).
  - reflexivity.
  - unfold ProcessData.open_database. rewrite lookup_insert_eq. simpl.
    rewrite lookup_insert_eq. reflexivity.
  - reflexivity.
Qed.

(** ** Facts about results and frames *)

Module PyFacts.

Lemma bind_ok {A B : Type} (r : result A) (k : A -> result B) (b : B) :
  bind r k = Ok b -> exists a, r = Ok a /\ k a = Ok b.
Proof. destruct r as [a|e]; [eauto|discriminate]. Qed.

Lemma for_each_ok {A B : Type} (f : A -> result B) (xs : list A)
  (ys : list B) :
  for_each f xs = Ok ys -> Forall2 (fun x y => f x = Ok y) xs ys.
Proof.
  revert ys. induction xs as [|x xs IH]; intros ys H; cbn [for_each] in H.
  - injection H as <-. constructor.
  - apply bind_ok in H as (y & Hy & H).
    apply bind_ok in H as (ys' & Hys & H). injection H as <-.
    constructor; [exact Hy|apply IH, Hys].
Qed.

Lemma for_each_map {A B : Type} (f : A -> result B) (g : A -> B)
  (xs : list A) :
  (forall x, In x xs -> f x = Ok (g x)) -> for_each f xs = Ok (map g xs).
Proof.
  induction xs as [|x xs IH]; intros H; cbn [for_each map]; [reflexivity|].
  rewrite (H x) by (left; reflexivity). cbn [bind].
  rewrite IH by (intros y Hy; apply H; right; exact Hy). reflexivity.
Qed.

End PyFacts.

Ltac bind_inv H :=
  let x := fresh "x" in
  let Hx := fresh "H" x in
  apply PyFacts.bind_ok in H as (x & Hx & H).

Module PandasFacts.

Import Spec.

(** *** Dropping a column *)

Lemma labelled_drop (name : string) (cols : list string) (row : list value) :
  labelled (drop_cols name cols) (drop_row name cols row)
  = List.filter (keep_label name) (labelled cols row).
Proof.
  unfold drop_row, labelled. revert row.
  induction cols as [|c cols IH]; intros row; [reflexivity|].
  destruct row as [|v row].
  - cbn [combine List.filter map]. apply combine_nil.
  - cbn [combine List.filter drop_cols].
    change (keep_label name (c, v)) with (negb (String.eqb name c)).
    destruct (negb (String.eqb name c)) eqn:Hk; cbn [map snd combine].
    + f_equal. apply IH.
    + apply IH.
Qed.

Lemma drop_row_length (name : string) (cols : list string) (row : list value) :
  (List.length (drop_row name cols row)
   <= List.length (drop_cols name cols))%nat.
Proof.
  unfold drop_row, labelled, drop_cols. revert row.
  induction cols as [|c cols IH]; intros row; [cbn; lia|].
  destruct row as [|v row]; [cbn; lia|].
  cbn [combine List.filter].
  change (keep_label name (c, v)) with (negb (String.eqb name c)).
  specialize (IH row).
  destruct (negb (String.eqb name c)); cbn [map List.length]; lia.
Qed.

Lemma drop_cols_not_in (name : string) (cols : list string) :
  ~ In name (drop_cols name cols).
Proof.
  unfold drop_cols. intros H. apply filter_In in H as [_ H].
  rewrite String.eqb_refl in H. discriminate.
Qed.

Lemma drop_ok (name : string) (df df' : DataFrame) :
  drop name df = Ok df' ->
  df' = {| columns := drop_cols name (columns df);
           rows := map (drop_row name (columns df)) (rows df) |}.
Proof.
  unfold drop. destruct (existsb _ _); [|discriminate].
  intros H. injection H as <-. reflexivity.
Qed.

(** *** Columns put side by side *)

Lemma zip_rows_in (rs1 rs2 : list (list value)) (r : list value) :
  In r (zip_rows rs1 rs2) ->
  exists r1 r2, r = r1 ++ r2 /\ In r1 rs1 /\ In r2 rs2.
Proof.
  revert rs2. induction rs1 as [|a rs1 IH]; intros [|b rs2] H;
    cbn [zip_rows] in H; try contradiction.
  destruct H as [<-|H].
  - exists a, b. repeat split; left; reflexivity.
  - destruct (IH _ H) as (r1 & r2 & -> & H1 & H2).
    exists r1, r2. repeat split; right; assumption.
Qed.

Lemma zip_rows_map {A : Type} (f g : A -> list value) (xs : list A) :
  zip_rows (map f xs) (map g xs) = map (fun x => f x ++ g x) xs.
Proof.
  induction xs as [|x xs IH]; cbn [map zip_rows]; [reflexivity|].
  f_equal. exact IH.
Qed.

(** A pair of the joined row whose label does not come from the left
    frame carries a cell of the right frame. *)
Lemma labelled_app_right (cols1 cols2 : list string) (r1 r2 : list value)
  (k : string) (v : value) :
  (List.length r1 <= List.length cols1)%nat ->
  In (k, v) (labelled (cols1 ++ cols2) (r1 ++ r2)) ->
  In k cols1 \/ In v r2.
Proof.
  unfold labelled. revert r1.
  induction cols1 as [|c cols1 IH]; intros r1 Hlen H.
  - destruct r1; [|cbn in Hlen; lia].
    right. exact (in_combine_r _ _ _ _ H).
  - destruct r1 as [|x r1].
    + right. exact (in_combine_r _ _ _ _ H).
    + cbn [app combine] in H. destruct H as [H|H].
      * injection H as <- _. left. left. reflexivity.
      * destruct (IH r1) as [Hk|Hv]; [cbn in Hlen; lia|exact H| |].
        -- left. right. exact Hk.
        -- right. exact Hv.
Qed.

Lemma rows_of_columns_int (nrows : nat) (cols : list (list value)) :
  Forall (Forall is_int) cols ->
  Forall (Forall is_int) (ProcessData.rows_of_columns nrows cols).
Proof.
  unfold ProcessData.rows_of_columns.
  assert (Hstart : Forall (Forall is_int) (repeat ([] : list value) nrows)).
  { apply List.Forall_forall. intros r Hr. apply repeat_spec in Hr. subst r.
    constructor. }
  revert Hstart. generalize (repeat ([] : list value) nrows) as rs.
  induction cols as [|col cols IH]; intros rs Hrs Hcols; cbn [fold_left].
  - exact Hrs.
  - apply List.Forall_cons_iff in Hcols as [Hcol Hcols].
    apply IH; [|exact Hcols].
    apply List.Forall_forall. intros r Hr.
    apply zip_rows_in in Hr as (r1 & r2 & -> & H1 & H2).
    apply List.Forall_app. split.
    + rewrite List.Forall_forall in Hrs. apply Hrs, H1.
    + apply in_map_iff in H2 as (v & <- & Hv).
      constructor; [|constructor].
      rewrite List.Forall_forall in Hcol. apply Hcol, Hv.
Qed.

(** *** Duplicates and missing values *)

Lemma drop_duplicates_from_incl (seen rs : list (list value)) (r : list value) :
  In r (drop_duplicates_from seen rs) -> In r rs /\ ~ In r seen.
Proof.
  revert seen. induction rs as [|a rs IH]; intros seen H;
    cbn [drop_duplicates_from] in H; [contradiction|].
  destruct (bool_decide (a ∈ seen)) eqn:Hseen.
  - destruct (IH _ H) as [H1 H2]. split; [right; exact H1|exact H2].
  - apply bool_decide_eq_false in Hseen. rewrite list_elem_of_In in Hseen.
    destruct H as [<-|H].
    + split; [left; reflexivity|exact Hseen].
    + destruct (IH _ H) as [H1 H2]. split; [right; exact H1|].
      intros Hin. apply H2. right. exact Hin.
Qed.

Lemma drop_duplicates_from_NoDup (seen rs : list (list value)) :
  List.NoDup (drop_duplicates_from seen rs).
Proof.
  revert seen. induction rs as [|a rs IH]; intros seen;
    cbn [drop_duplicates_from]; [constructor|].
  destruct (bool_decide (a ∈ seen)); [apply IH|].
  constructor; [|apply IH].
  intros Hin. apply drop_duplicates_from_incl in Hin as [_ Hnot].
  apply Hnot. left. reflexivity.
Qed.

Lemma dropna_no_nan (df : DataFrame) (r : list value) (v : value) :
  In r (rows (dropna df)) -> In v r -> v <> VNaN.
Proof.
  unfold dropna. cbn [rows]. intros Hr Hv ->.
  apply filter_In in Hr as [_ Hr]. apply negb_true_iff in Hr.
  assert (Hex : existsb is_nan r = true).
  { apply existsb_exists. exists VNaN. split; [exact Hv|reflexivity]. }
  congruence.
Qed.

End PandasFacts.

(** ** [clean_data]: what the result looks like *)

Module CleanFacts.
Import Spec PandasFacts ProcessData.

(** The stages of a successful run. *)
Lemma clean_data_stages (df out : DataFrame) :
  clean_data df = Ok out ->
  exists expanded,
    expand_categories df = Ok expanded
    /\ out = dropna
         {| columns := drop_cols "original" (columns expanded);
            rows := map (drop_row "original" (columns expanded))
                        (rows (drop_duplicates expanded)) |}.
Proof.
  unfold clean_data. intros H. bind_inv H. bind_inv H.
  apply drop_ok in Hx0. injection H as <-. subst x0.
  exists x. split; [exact Hx|reflexivity].
Qed.

Lemma expand_categories_stages (df expanded : DataFrame) :
  expand_categories df = Ok expanded ->
  exists names converted,
    Forall (Forall is_int) converted
    /\ columns expanded = drop_cols "categories" (columns df) ++ names
    /\ rows expanded
       = zip_rows (map (drop_row "categories" (columns df)) (rows df))
                  (rows_of_columns (List.length (rows df)) converted)
    /\ Forall (fun n => count_label n names <= 1)%nat names.
Proof.
  unfold expand_categories. intros H.
  bind_inv H. bind_inv H. bind_inv H. bind_inv H. bind_inv H. bind_inv H.
  apply drop_ok in Hx4. injection H as <-. subst x4.
  exists x2, x3. repeat split.
  - apply PyFacts.for_each_ok in Hx3.
    clear - Hx3. induction Hx3 as [|jc col jcs cols Hcol _ IH]; constructor;
      [|exact IH].
    unfold convert_column in Hcol.
    destruct (1 <? count_label (snd jc) x2)%nat; [discriminate|].
    apply PyFacts.for_each_ok in Hcol.
    clear - Hcol. induction Hcol as [|r v rs vs Hv _ IH]; constructor;
      [|exact IH].
    bind_inv Hv. injection Hv as <-. eexists. reflexivity.
  - apply PyFacts.for_each_ok in Hx3.
    apply List.Forall_forall. intros n Hn.
    assert (Hjc : exists j, In (j, n) (indexed x2)).
    { unfold indexed. clear - Hn. generalize 0%nat as start.
      induction x2 as [|a l IH]; intros start; [contradiction|].
      cbn [List.length seq combine]. destruct Hn as [->|Hn].
      - exists start. left. reflexivity.
      - destruct (IH Hn (S start)) as [j Hj]. exists j. right. exact Hj. }
    destruct Hjc as [j Hj].
    clear - Hx3 Hj. induction Hx3 as [|jc col jcs cols Hcol _ IH];
      [contradiction|].
    destruct Hj as [->|Hj]; [|exact (IH Hj)].
    unfold convert_column in Hcol. cbn [snd] in Hcol.
    destruct (1 <? count_label n x2)%nat eqn:Hc; [discriminate|].
    apply Nat.ltb_ge in Hc. exact Hc.
Qed.

(** In the result every cell under a label called [categories] is an
    integer or missing, never a string. *)
Lemma clean_data_categories_cells (df out : DataFrame) (r : list value) :
  clean_data df = Ok out ->
  In r (rows out) ->
  is_str (cell "categories" (columns out) r) = false.
Proof.
  intros Hclean Hr.
  apply clean_data_stages in Hclean as (expanded & Hexp & ->).
  apply expand_categories_stages in Hexp
    as (names & converted & Hint & Hcols & Hrows & _).
  cbn [dropna rows columns] in *.
  apply filter_In in Hr as [Hr _].
  apply in_map_iff in Hr as (r2 & <- & Hr2).
  unfold drop_duplicates in Hr2. cbn [rows] in Hr2.
  apply drop_duplicates_from_incl in Hr2 as [Hr2 _].
  rewrite Hrows in Hr2.
  apply zip_rows_in in Hr2 as (r1 & rc & -> & Hr1 & Hrc).
  apply in_map_iff in Hr1 as (r0 & <- & _).
  unfold cell. rewrite labelled_drop, Hcols.
  destruct (List.find _ _) as [[k v]|] eqn:Hfind; [|reflexivity].
  apply find_some in Hfind as [Hin Hk].
  apply filter_In in Hin as [Hin _].
  cbn [fst] in Hk. apply String.eqb_eq in Hk. subst k. cbn [snd].
  apply labelled_app_right in Hin as [Hin|Hin].
  - exfalso. exact (drop_cols_not_in _ _ Hin).
  - pose proof (rows_of_columns_int (List.length (rows df)) converted Hint)
      as Hall.
    rewrite List.Forall_forall in Hall. specialize (Hall rc Hrc).
    rewrite List.Forall_forall in Hall. destruct (Hall v Hin) as [n ->].
    reflexivity.
  - apply drop_row_length.
Qed.

End CleanFacts.

(** C7, as stated, fails: rows are compared as a whole, so two rows with
    the same identifier and different messages both stay. *)
Lemma clean_data_keeps_repeated_identifier :
  exists out,
    ProcessData.clean_data two_messages_one_id = Ok out
    /\ map (cell "id" (columns out)) (rows out) = [VInt 1; VInt 1]
    /\ ~ List.NoDup (map (cell "id" (columns out)) (rows out)).
Proof.
  eexists. split; [vm_compute; reflexivity|]. split; [reflexivity|].
  cbn. intros H. inversion H as [|? ? Hnot _]. apply Hnot. left. reflexivity.
Qed.

(** Rows that differ only in the [original] text are not duplicates when
    [drop_duplicates] runs, and are equal once that column is gone. *)
Example clean_data_can_leave_equal_rows :
  ProcessData.clean_data
    {| columns := ["id"; "message"; "original"; "genre"; "categories"];
       rows := [[VInt 1; VStr "help"; VStr "ede"; VStr "direct";
                 VStr "aid:1"];
                [VInt 1; VStr "help"; VStr "aide"; VStr "direct";
                 VStr "aid:1"]] |}
  = Ok {| columns := ["id"; "message"; "genre"; "aid"];
          rows := [[VInt 1; VStr "help"; VStr "direct"; VInt 1];
                   [VInt 1; VStr "help"; VStr "direct"; VInt 1]] |}.
Proof. vm_compute. reflexivity. Qed.

(** C7 (amended): in the output of [clean_data] no cell of any retained
    column is a missing value, and the rows are those of the expanded
    frame with exact duplicates (equal in every column, the original text
    included) removed, before the original text is dropped; identifiers
    may repeat. *)
Theorem clean_data_no_missing_values (df out : DataFrame) :
  ProcessData.clean_data df = Ok out ->
  (forall r v, In r (rows out) -> In v r -> v <> VNaN)
  /\ exists expanded,
       ProcessData.expand_categories df = Ok expanded
       /\ List.NoDup (rows (drop_duplicates expanded))
       /\ (forall r, In r (rows (drop_duplicates expanded)) ->
                     In r (rows expanded))
       /\ (forall r, In r (rows out) ->
             exists r', In r' (rows (drop_duplicates expanded))
                        /\ r = drop_row "original" (columns expanded) r').
Proof.
  intros Hclean.
  apply CleanFacts.clean_data_stages in Hclean as (expanded & Hexp & ->).
  split.
  - intros r v. apply PandasFacts.dropna_no_nan.
  - exists expanded. split; [exact Hexp|]. split; [|split].
    + apply PandasFacts.drop_duplicates_from_NoDup.
    + intros r Hr. apply PandasFacts.drop_duplicates_from_incl in Hr as [Hr _].
      exact Hr.
    + intros r Hr. cbn [dropna rows] in Hr.
      apply filter_In in Hr as [Hr _].
      apply in_map_iff in Hr as (r' & <- & Hr'). eauto.
Qed.

Lemma clean_data_no_missing_values_witness :
  ProcessData.clean_data two_messages_one_id
  = Ok {| columns := ["id"; "message"; "genre"; "aid"; "water"];
          rows := [[VInt 1; VStr "help"; VStr "direct"; VInt 1; VInt 0];
                   [VInt 1; VStr "help me"; VStr "direct"; VInt 1; VInt 0]] |}
  /\ (forall r v,
        In r [[VInt 1; VStr "help"; VStr "direct"; VInt 1; VInt 0];
              [VInt 1; VStr "help me"; VStr "direct"; VInt 1; VInt 0]] ->
        In v r -> v <> VNaN).
Proof.
  assert (H : ProcessData.clean_data two_messages_one_id
              = Ok {| columns := ["id"; "message"; "genre"; "aid"; "water"];
                      rows := [[VInt 1; VStr "help"; VStr "direct";
                                VInt 1; VInt 0];
                               [VInt 1; VStr "help me"; VStr "direct";
                                VInt 1; VInt 0]] |})
    by (vm_compute; reflexivity).
  split; [exact H|].
  exact (proj1 (clean_data_no_missing_values two_messages_one_id _ H)).
Defined.

(** C3, as stated, fails: the cleaned frame has no [categories] column
    any more, so a second run stops at [df.categories]. *)
Lemma clean_data_twice_raises :
  exists out,
    ProcessData.clean_data two_messages_one_id = Ok out
    /\ ProcessData.clean_data out = Raise AttributeError
    /\ ProcessData.clean_data out <> Ok out.
Proof.
  eexists. split; [vm_compute; reflexivity|].
  split; [vm_compute; reflexivity|]. vm_compute. discriminate.
Qed.

(** C3 (amended): [clean_data] is not idempotent; applied to any output of
    itself it raises an exception and returns no frame. *)
Theorem clean_data_on_clean_output_raises (df out : DataFrame) :
  ProcessData.clean_data df = Ok out ->
  raises (ProcessData.clean_data out).
Proof.
  intros Hclean.
  unfold ProcessData.clean_data at 1, ProcessData.expand_categories, get_attr.
  destruct (count_label "categories" (columns out)) as [|[|n]];
    try (exists AttributeError; reflexivity).
  cbn [bind].
  assert (Hcells : forall v,
            In v (map (cell "categories" (columns out)) (rows out)) ->
            is_str v = false).
  { intros v Hv. apply in_map_iff in Hv as (r & <- & Hr).
    exact (CleanFacts.clean_data_categories_cells df out r Hclean Hr). }
  destruct (map (cell "categories" (columns out)) (rows out))
    as [|v series] eqn:Hseries.
  - exists IndexError. reflexivity.
  - unfold str_accessor.
    destruct (existsb is_str (v :: series)) eqn:Hex.
    + apply existsb_exists in Hex as (w & Hw & Hstr).
      rewrite (Hcells w Hw) in Hstr. discriminate.
    + exists AttributeError. reflexivity.
Qed.

Lemma clean_data_on_clean_output_raises_witness :
  raises (ProcessData.clean_data
    {| columns := ["id"; "message"; "genre"; "aid"; "water"];
       rows := [[VInt 1; VStr "help"; VStr "direct"; VInt 1; VInt 0];
                [VInt 1; VStr "help me"; VStr "direct"; VInt 1; VInt 0]] |}).
Proof.
  apply (clean_data_on_clean_output_raises two_messages_one_id).
  vm_compute. reflexivity.
Defined.

(** ** The inner join of [load_data] *)

Module MergeFacts.
Import Spec.

Lemma matching_from_ge (start : nat) (k : value) (keys : list value) (j : nat) :
  In j (matching_from start k keys) -> (start <= j)%nat.
Proof.
  revert start. induction keys as [|k' keys IH]; intros start H;
    cbn [matching_from] in H; [contradiction|].
  destruct (bool_decide (k = k')).
  - destruct H as [<-|H]; [lia|]. apply IH in H. lia.
  - apply IH in H. lia.
Qed.

Lemma matching_from_length (start : nat) (k : value) (keys : list value) :
  List.length (matching_from start k keys) = count_key k keys.
Proof.
  unfold count_key. revert start.
  induction keys as [|k' keys IH]; intros start;
    cbn [matching_from List.filter]; [reflexivity|].
  rewrite (bool_decide_ext (k' = k) (k = k')) by (split; congruence).
  destruct (bool_decide (k = k')); cbn [List.length]; rewrite IH; reflexivity.
Qed.

Lemma filter_none {A : Type} (f : A -> bool) (l : list A) :
  (forall x, In x l -> f x = false) -> List.filter f l = [].
Proof.
  induction l as [|a l IH]; intros H; cbn [List.filter]; [reflexivity|].
  rewrite (H a) by (left; reflexivity).
  apply IH. intros x Hx. apply H. right. exact Hx.
Qed.

(** The right row at position [j] is matched once by its own key and not
    at all by another key. *)
Lemma matching_from_at (start : nat) (k k' : value) (keys : list value)
  (j : nat) :
  nth_error keys j = Some k ->
  List.length (List.filter (Nat.eqb (start + j)) (matching_from start k' keys))
  = if bool_decide (k' = k) then 1%nat else 0%nat.
Proof.
  revert start j. induction keys as [|a keys IH]; intros start j Hj.
  - destruct j; discriminate.
  - cbn [matching_from]. destruct j as [|j]; cbn [nth_error] in Hj.
    + injection Hj as ->. rewrite Nat.add_0_r.
      assert (Hrest : List.filter (Nat.eqb start)
                        (matching_from (S start) k' keys) = []).
      { apply filter_none. intros x Hx. apply matching_from_ge in Hx.
        apply Nat.eqb_neq. lia. }
      destruct (bool_decide (k' = k)); cbn [List.filter];
        rewrite ?Nat.eqb_refl, Hrest; reflexivity.
    + replace (start + S j)%nat with (S start + j)%nat by lia.
      specialize (IH (S start) j Hj).
      destruct (bool_decide (k' = a)); [|exact IH].
      cbn [List.filter].
      replace (Nat.eqb (S start + j) start) with false
        by (symmetry; apply Nat.eqb_neq; lia).
      exact IH.
Qed.

Lemma join_indexers_from_ge (start : nat) (lkeys rkeys : list value)
  (p : nat * nat) :
  In p (join_indexers_from start lkeys rkeys) -> (start <= fst p)%nat.
Proof.
  revert start. induction lkeys as [|k lkeys IH]; intros start H;
    cbn [join_indexers_from] in H; [contradiction|].
  apply in_app_or in H as [H|H].
  - apply in_map_iff in H as (j & <- & _). cbn. lia.
  - apply IH in H. lia.
Qed.

Lemma from_left_block (i start : nat) (js : list nat) :
  from_left i (map (pair start) js)
  = if Nat.eqb start i then map (pair start) js else [].
Proof.
  unfold from_left. induction js as [|j js IH]; cbn [map List.filter fst].
  - destruct (Nat.eqb start i); reflexivity.
  - rewrite IH. destruct (Nat.eqb start i); reflexivity.
Qed.

(** The merged rows built from the left row [i] are its pairings with the
    right rows of the same key, in their order. *)
Lemma from_left_join (start : nat) (lkeys rkeys : list value) (i : nat)
  (k : value) :
  nth_error lkeys i = Some k ->
  from_left (start + i) (join_indexers_from start lkeys rkeys)
  = map (pair (start + i)) (matching_from 0 k rkeys).
Proof.
  revert start i. induction lkeys as [|a lkeys IH]; intros start i Hi.
  - destruct i; discriminate.
  - cbn [join_indexers_from]. unfold from_left. rewrite List.filter_app.
    fold (from_left (start + i) (map (pair start) (matching_from 0 a rkeys))).
    fold (from_left (start + i) (join_indexers_from (S start) lkeys rkeys)).
    rewrite from_left_block.
    destruct i as [|i]; cbn [nth_error] in Hi.
    + injection Hi as ->. rewrite Nat.add_0_r, Nat.eqb_refl.
      unfold from_left. rewrite filter_none; [apply app_nil_r|].
      intros p Hp. apply join_indexers_from_ge in Hp.
      apply Nat.eqb_neq. lia.
    + replace (Nat.eqb start (start + S i)) with false
        by (symmetry; apply Nat.eqb_neq; lia).
      replace (start + S i)%nat with (S start + i)%nat by lia.
      cbn [app]. apply IH, Hi.
Qed.

Lemma from_right_block (j start : nat) (js : list nat) :
  List.length (from_right j (map (pair start) js))
  = List.length (List.filter (Nat.eqb j) js).
Proof.
  unfold from_right. induction js as [|x js IH];
    cbn [map List.filter snd]; [reflexivity|].
  rewrite (Nat.eqb_sym x j).
  destruct (Nat.eqb j x); cbn [List.length]; rewrite IH; reflexivity.
Qed.

Lemma from_right_join (start : nat) (lkeys rkeys : list value) (j : nat)
  (k : value) :
  nth_error rkeys j = Some k ->
  List.length (from_right j (join_indexers_from start lkeys rkeys))
  = count_key k lkeys.
Proof.
  intros Hj. unfold count_key. revert start.
  induction lkeys as [|a lkeys IH]; intros start;
    cbn [join_indexers_from List.filter]; [reflexivity|].
  unfold from_right. rewrite List.filter_app, length_app.
  fold (from_right j (map (pair start) (matching_from 0 a rkeys))).
  fold (from_right j (join_indexers_from (S start) lkeys rkeys)).
  rewrite from_right_block, IH.
  pose proof (matching_from_at 0 k a rkeys j Hj) as Hat.
  cbn [Nat.add] in Hat. rewrite Hat.
  destruct (bool_decide (a = k)); reflexivity.
Qed.

Lemma matching_from_nth (start : nat) (k : value) (keys : list value)
  (j : nat) :
  In j (matching_from start k keys) ->
  nth_error keys (j - start) = Some k.
Proof.
  revert start. induction keys as [|a keys IH]; intros start Hm;
    cbn [matching_from] in Hm; [contradiction|].
  destruct (bool_decide (k = a)) eqn:Hka.
  - destruct Hm as [<-|Hm].
    + rewrite Nat.sub_diag. apply bool_decide_eq_true in Hka.
      subst a. reflexivity.
    + pose proof (matching_from_ge _ _ _ _ Hm) as Hge.
      replace (j - start)%nat with (S (j - S start)) by lia.
      apply IH, Hm.
  - pose proof (matching_from_ge _ _ _ _ Hm) as Hge.
    replace (j - start)%nat with (S (j - S start)) by lia.
    apply IH, Hm.
Qed.

Lemma join_indexers_from_lt (start : nat) (lkeys rkeys : list value)
  (p : nat * nat) :
  In p (join_indexers_from start lkeys rkeys) ->
  (fst p < start + List.length lkeys)%nat.
Proof.
  revert start. induction lkeys as [|a lkeys IH]; intros start Hp;
    cbn [join_indexers_from] in Hp; [contradiction|].
  apply in_app_or in Hp as [Hp|Hp].
  - apply in_map_iff in Hp as (j & <- & _). cbn. lia.
  - apply IH in Hp. cbn [List.length]. lia.
Qed.

Lemma merge_ok (left right : DataFrame) (key : string) (df : DataFrame) :
  merge left right key = Ok df ->
  rows df
  = map (merged_row key left right)
        (join_indexers (map (cell key (columns left)) (rows left))
                       (map (cell key (columns right)) (rows right))).
Proof.
  unfold merge.
  destruct (count_label key (columns left)) as [|[|n]];
    destruct (count_label key (columns right)) as [|[|m]];
    try discriminate.
  intros H. injection H as <-. reflexivity.
Qed.

End MergeFacts.

(** C6, as stated, fails: the join pairs every row with every row of the
    same key.  The message with identifier 1 meets two category rows with
    identifier 1 and gives two merged rows, not one. *)
Lemma load_data_repeated_key_two_rows :
  exists df,
    ProcessData.load_data Samples.read_csv
      "disaster_messages.csv" "disaster_categories.csv" = Ok df
    /\ rows df
       = [[VInt 1; VStr "help"; VNaN; VStr "direct"; VStr "aid:1;water:0"];
          [VInt 1; VStr "help"; VNaN; VStr "direct"; VStr "aid:0;water:0"]]
    /\ Spec.from_left 0
         (join_indexers
            (map (cell "id" (columns Samples.messages)) (rows Samples.messages))
            (map (cell "id" (columns Samples.categories))
                 (rows Samples.categories)))
       = [(0, 0); (0, 1)]%nat.
Proof.
  eexists. split; [vm_compute; reflexivity|]. split; reflexivity.
Qed.

(** C6 (amended): [load_data] is an inner join on the identifier: the
    merged rows are the pairings of a message row with a category row of
    the same identifier.  A row of either input gives as many merged rows
    as the other input has rows with its identifier: none when the
    identifier is absent there (the row is excluded), exactly one when it
    occurs there once, several when it is repeated. *)
Theorem load_data_inner_join
  (read_csv : string -> result DataFrame)
  (messages_filepath categories_filepath : string) (df : DataFrame) :
  ProcessData.load_data read_csv messages_filepath categories_filepath
    = Ok df ->
  exists messages categories,
    read_csv messages_filepath = Ok messages
    /\ read_csv categories_filepath = Ok categories
    /\ let lkeys := map (cell "id" (columns messages)) (rows messages) in
       let rkeys := map (cell "id" (columns categories)) (rows categories) in
       let pairs := join_indexers lkeys rkeys in
       rows df = map (merged_row "id" messages categories) pairs
       /\ (forall i k, nth_error lkeys i = Some k ->
             List.length (Spec.from_left i pairs) = Spec.count_key k rkeys)
       /\ (forall j k, nth_error rkeys j = Some k ->
             List.length (Spec.from_right j pairs) = Spec.count_key k lkeys)
       /\ (forall i j, In (i, j) pairs ->
             exists k, nth_error lkeys i = Some k
                       /\ nth_error rkeys j = Some k).
Proof.
  unfold ProcessData.load_data. intros H. bind_inv H. bind_inv H.
  exists x, x0. split; [exact Hx|]. split; [exact Hx0|].
  cbv zeta.
  set (lkeys := map (cell "id" (columns x)) (rows x)).
  set (rkeys := map (cell "id" (columns x0)) (rows x0)).
  set (pairs := join_indexers lkeys rkeys).
  split; [|split; [|split]].
  - exact (MergeFacts.merge_ok _ _ _ _ H).
  - intros i k Hi. unfold pairs, join_indexers.
    pose proof (MergeFacts.from_left_join 0 lkeys rkeys i k Hi) as Hl.
    cbn [Nat.add] in Hl. rewrite Hl.
    rewrite length_map. apply MergeFacts.matching_from_length.
  - intros j k Hj. unfold pairs, join_indexers.
    apply MergeFacts.from_right_join, Hj.
  - intros i j Hin.
    destruct (nth_error lkeys i) as [k|] eqn:Hi.
    + exists k. split; [reflexivity|].
      assert (Hl : In (i, j) (Spec.from_left i pairs)).
      { apply filter_In. split; [exact Hin|apply Nat.eqb_refl]. }
      unfold pairs, join_indexers in Hl.
      pose proof (MergeFacts.from_left_join 0 lkeys rkeys i k Hi) as Hl'.
      cbn [Nat.add] in Hl'. rewrite Hl' in Hl.
      apply in_map_iff in Hl as (j' & Hj' & Hm). injection Hj' as ->.
      apply MergeFacts.matching_from_nth in Hm.
      rewrite Nat.sub_0_r in Hm. exact Hm.
    + exfalso. apply nth_error_None in Hi.
      pose proof (MergeFacts.join_indexers_from_lt 0 lkeys rkeys (i, j) Hin)
        as Hlt.
      cbn in Hlt. lia.
Qed.

Lemma load_data_inner_join_witness :
  List.length
    (Spec.from_left 0
       (join_indexers
          (map (cell "id" (columns Samples.messages)) (rows Samples.messages))
          (map (cell "id" (columns Samples.categories))
               (rows Samples.categories))))
  = Spec.count_key (VInt 1)
      (map (cell "id" (columns Samples.categories)) (rows Samples.categories)).
Proof.
  destruct (load_data_inner_join Samples.read_csv
              "disaster_messages.csv" "disaster_categories.csv"
              {| columns := ["id"; "message"; "original"; "genre";
                             "categories"];
                 rows := [[VInt 1; VStr "help"; VNaN; VStr "direct";
                           VStr "aid:1;water:0"];
                          [VInt 1; VStr "help"; VNaN; VStr "direct";
                           VStr "aid:0;water:0"]] |})
    as (m & c & Hm & Hc & _ & Hleft & _).
  - vm_compute. reflexivity.
  - vm_compute in Hm, Hc. injection Hm as <-. injection Hc as <-.
    apply (Hleft 0%nat (VInt 1)). reflexivity.
Defined.

(** A row whose identifier is absent on the other side is excluded, and a
    row whose identifier occurs there once is merged exactly once. *)
Example load_data_sample_counts :
  let lkeys := map (cell "id" (columns Samples.messages))
                   (rows Samples.messages) in
  let rkeys := map (cell "id" (columns Samples.categories))
                   (rows Samples.categories) in
  let pairs := join_indexers lkeys rkeys in
  Spec.from_left 1 pairs = []
  /\ Spec.from_right 2 pairs = []
  /\ Spec.from_right 0 pairs = [(0, 0)]%nat
  /\ Spec.from_right 1 pairs = [(0, 1)]%nat.
Proof. repeat split. Qed.

(** ** Category strings *)

Module EncodeFacts.
Import Spec Str StrFacts.

Lemma chars_append (a b : string) : chars (a +:+ b) = chars a ++ chars b.
Proof.
  unfold chars. induction a as [|c a IH]; [reflexivity|].
  change (String c a +:+ b) with (String c (a +:+ b)).
  cbn [list_ascii_of_string app]. f_equal. exact IH.
Qed.

Lemma split_chars_single (sep : ascii) (f : list ascii) :
  ~ In sep f -> split_chars sep f = [f].
Proof.
  induction f as [|c f IH]; intros Hno; cbn [split_chars]; [reflexivity|].
  destruct (Ascii.eqb c sep) eqn:Hc.
  - apply Ascii.eqb_eq in Hc. exfalso. apply Hno. left. exact Hc.
  - rewrite IH by (intros Hin; apply Hno; right; exact Hin). reflexivity.
Qed.

Lemma split_chars_app (sep : ascii) (f rest : list ascii) :
  ~ In sep f ->
  split_chars sep (f ++ sep :: rest) = f :: split_chars sep rest.
Proof.
  induction f as [|c f IH]; intros Hno; cbn [split_chars app].
  - rewrite Ascii.eqb_refl. reflexivity.
  - destruct (Ascii.eqb c sep) eqn:Hc.
    + apply Ascii.eqb_eq in Hc. exfalso. apply Hno. left. exact Hc.
    + rewrite IH by (intros Hin; apply Hno; right; exact Hin). reflexivity.
Qed.

(** Splitting a joined list of fields gives the fields back when no field
    contains the separator. *)
Lemma split_join (fields : list string) :
  fields <> [] ->
  (forall f, In f fields -> ~ In ";"%char (chars f)) ->
  split ";" (join ";" fields) = fields.
Proof.
  unfold split. induction fields as [|f fields IH]; intros Hne Hno;
    [congruence|].
  destruct fields as [|g fields].
  - cbn [join]. rewrite split_chars_single by (apply Hno; left; reflexivity).
    cbn [map]. rewrite of_chars_chars. reflexivity.
  - change (join ";" (f :: g :: fields))
      with (f +:+ ";" +:+ join ";" (g :: fields)).
    rewrite !chars_append. change (chars ";") with [";"%char]. cbn [app].
    rewrite split_chars_app by (apply Hno; left; reflexivity).
    cbn [map]. rewrite of_chars_chars. f_equal.
    apply IH; [discriminate|].
    intros h Hh. apply Hno. right. exact Hh.
Qed.

Lemma digit_char_code (d : nat) :
  (d < 10)%nat -> nat_of_ascii (digit_char d) = (48 + d)%nat.
Proof. intros Hd. unfold digit_char. apply nat_ascii_embedding. lia. Qed.

Lemma chars_pair_field (label : string) (d : nat) :
  chars (pair_field label d) = chars label ++ [":"%char; digit_char d].
Proof. unfold pair_field. rewrite !chars_append. reflexivity. Qed.

Lemma pair_field_no_sep (label : string) (d : nat) :
  (d < 10)%nat -> ~ In ";"%char (chars label) ->
  ~ In ";"%char (chars (pair_field label d)).
Proof.
  intros Hd Hl. rewrite chars_pair_field. intros Hin.
  apply in_app_or in Hin as [Hin|[Hin|[Hin|[]]]].
  - exact (Hl Hin).
  - discriminate Hin.
  - apply (f_equal nat_of_ascii) in Hin.
    rewrite digit_char_code in Hin by exact Hd.
    change (nat_of_ascii ";") with 59%nat in Hin. lia.
Qed.

Lemma drop_last2_pair_field (label : string) (d : nat) :
  drop_last2 (pair_field label d) = label.
Proof.
  unfold drop_last2. rewrite chars_pair_field, length_app. cbn [List.length].
  replace (List.length (chars label) + 2 - 2)%nat
    with (List.length (chars label) + 0)%nat by lia.
  rewrite firstn_app_2. cbn [firstn]. rewrite app_nil_r.
  apply of_chars_chars.
Qed.

Lemma last_char_pair_field (label : string) (d : nat) :
  last_char (pair_field label d) = Some (digit_char d).
Proof.
  unfold last_char. rewrite chars_pair_field, map_app. cbn [map].
  change [Some ":"%char; Some (digit_char d)]
    with ([Some ":"%char] ++ [Some (digit_char d)]).
  rewrite app_assoc. apply last_last.
Qed.

Lemma int_of_digit_char (d : nat) :
  (d < 10)%nat -> int_of_char (digit_char d) = Ok (Z.of_nat d).
Proof.
  intros Hd. unfold int_of_char. rewrite digit_char_code by exact Hd.
  replace (48 <=? 48 + d)%nat with true by (symmetry; apply Nat.leb_le; lia).
  replace (48 + d <=? 57)%nat with true by (symmetry; apply Nat.leb_le; lia).
  cbn [andb]. do 2 f_equal. lia.
Qed.

Lemma last_as_int_pair_field (label : string) (d : nat) :
  (d < 10)%nat ->
  last_as_int (FStr (pair_field label d)) = Ok (Z.of_nat d).
Proof.
  intros Hd. unfold last_as_int. rewrite last_char_pair_field.
  apply int_of_digit_char, Hd.
Qed.

Lemma pair_fields_length (labels : list string) (ds : list nat) :
  List.length ds = List.length labels ->
  List.length (pair_fields labels ds) = List.length labels.
Proof.
  revert ds. induction labels as [|l labels IH]; intros [|d ds] H;
    cbn in *; try lia. f_equal. apply IH. lia.
Qed.

Lemma pair_fields_labels (labels : list string) (ds : list nat) :
  List.length ds = List.length labels ->
  map drop_last2 (pair_fields labels ds) = labels.
Proof.
  revert ds. induction labels as [|l labels IH]; intros [|d ds] H;
    cbn [pair_fields map] in *; try (cbn in H; lia); [reflexivity|].
  rewrite drop_last2_pair_field. f_equal. apply IH. cbn in H. lia.
Qed.

Lemma pair_fields_no_sep (labels : list string) (ds : list nat) (f : string) :
  (forall l, In l labels -> ~ In ";"%char (chars l)) ->
  Forall (fun d => d < 10)%nat ds ->
  In f (pair_fields labels ds) -> ~ In ";"%char (chars f).
Proof.
  revert ds. induction labels as [|l labels IH]; intros [|d ds] Hl Hd Hin;
    cbn [pair_fields] in Hin; try contradiction.
  apply List.Forall_cons_iff in Hd as [Hd Hds].
  destruct Hin as [<-|Hin].
  - apply pair_field_no_sep; [exact Hd|apply Hl; left; reflexivity].
  - apply (IH ds); [|exact Hds|exact Hin].
    intros l' Hl'. apply Hl. right. exact Hl'.
Qed.

(** The integers of the fields, read field by field. *)
Lemma pair_fields_values (labels : list string) (ds : list nat) :
  List.length ds = List.length labels ->
  Forall (fun d => d < 10)%nat ds ->
  for_each last_as_int (map FStr (pair_fields labels ds))
  = Ok (map Z.of_nat ds).
Proof.
  revert ds. induction labels as [|l labels IH]; intros [|d ds] H Hd;
    cbn [pair_fields map for_each] in *; try (cbn in H; lia); [reflexivity|].
  apply List.Forall_cons_iff in Hd as [Hd Hds].
  rewrite last_as_int_pair_field by exact Hd. cbn [bind].
  rewrite IH by (cbn in H; lia || exact Hds). reflexivity.
Qed.

Lemma split_encode (labels : list string) (ds : list nat) :
  labels <> [] ->
  List.length ds = List.length labels ->
  (forall l, In l labels -> ~ In ";"%char (chars l)) ->
  Forall (fun d => d < 10)%nat ds ->
  split ";" (encode labels ds) = pair_fields labels ds.
Proof.
  intros Hne Hlen Hl Hd. unfold encode. apply split_join.
  - destruct labels; [congruence|]. destruct ds; [discriminate|].
    discriminate.
  - intros f. apply pair_fields_no_sep; assumption.
Qed.

End EncodeFacts.

(** ** [clean_data]: the expansion of the category strings *)

Module ExpandFacts.
Import Spec Str StrFacts EncodeFacts PandasFacts ProcessData.

Lemma count_label_NoDup (name : string) (labels : list string) :
  List.NoDup labels -> In name labels -> count_label name labels = 1%nat.
Proof.
  unfold count_label. induction 1 as [|l labels Hnot Hnd IH]; intros Hin;
    [contradiction|].
  cbn [List.filter]. destruct Hin as [->|Hin].
  - rewrite String.eqb_refl. cbn [List.length]. f_equal.
    rewrite MergeFacts.filter_none; [reflexivity|].
    intros x Hx. apply String.eqb_neq. intros ->. exact (Hnot Hx).
  - destruct (String.eqb name l) eqn:Hl.
    + apply String.eqb_eq in Hl. subst l. contradiction.
    + apply IH, Hin.
Qed.

Lemma count_label_exists (name : string) (cols : list string) :
  count_label name cols = 1%nat -> existsb (String.eqb name) cols = true.
Proof.
  unfold count_label. intros H.
  destruct (List.filter (String.eqb name) cols) as [|c l] eqn:Hf;
    [discriminate|].
  assert (Hc : In c (List.filter (String.eqb name) cols))
    by (rewrite Hf; left; reflexivity).
  apply filter_In in Hc as [Hc Heq].
  apply existsb_exists. exists c. split; assumption.
Qed.

Lemma in_indexed_from {A : Type} (l : list A) (start j : nat) (x : A) :
  In (j, x) (combine (seq start (List.length l)) l) ->
  (start <= j)%nat /\ nth_error l (j - start) = Some x.
Proof.
  revert start. induction l as [|a l IH]; intros start H;
    cbn [List.length seq combine] in H; [contradiction|].
  destruct H as [H|H].
  - injection H as <- <-. rewrite Nat.sub_diag. split; [lia|reflexivity].
  - apply IH in H as [Hge Hnth]. split; [lia|].
    replace (j - start)%nat with (S (j - S start)) by lia. exact Hnth.
Qed.

Lemma in_indexed {A : Type} (l : list A) (j : nat) (x : A) :
  In (j, x) (indexed l) -> nth_error l j = Some x.
Proof.
  intros H. apply in_indexed_from in H as [_ H].
  rewrite Nat.sub_0_r in H. exact H.
Qed.

Lemma map_fst_indexed_from {A B : Type} (f : nat -> B) (l : list A)
  (start : nat) :
  map (fun jc => f (fst jc)) (combine (seq start (List.length l)) l)
  = map f (seq start (List.length l)).
Proof.
  revert start. induction l as [|a l IH]; intros start;
    cbn [List.length seq combine map fst]; [reflexivity|].
  f_equal. apply IH.
Qed.

Lemma map_nth_seq_from {B : Type} (f : nat -> B) (ds : list nat) (start : nat) :
  map (fun j => f (nth (j - start) ds 0%nat)) (seq start (List.length ds))
  = map f ds.
Proof.
  revert start. induction ds as [|d ds IH]; intros start;
    cbn [List.length seq map]; [reflexivity|].
  rewrite Nat.sub_diag. cbn [nth]. f_equal.
  rewrite <- (IH (S start)). apply map_ext_in. intros j Hj.
  apply in_seq in Hj.
  replace (j - start)%nat with (S (j - S start)) by lia. reflexivity.
Qed.

Lemma nth_pair_fields (labels : list string) (ds : list nat) (j : nat)
  (name : string) :
  List.length ds = List.length labels ->
  nth_error labels j = Some name ->
  nth j (map FStr (pair_fields labels ds)) FNone
  = FStr (pair_field name (nth j ds 0%nat)).
Proof.
  revert ds j. induction labels as [|l labels IH]; intros [|d ds] j Hlen Hj;
    try (destruct j; discriminate); try (cbn in Hlen; lia).
  destruct j as [|j]; cbn [nth_error] in Hj.
  - injection Hj as ->. reflexivity.
  - cbn [pair_fields map nth]. apply IH; [cbn in Hlen; lia|exact Hj].
Qed.

Lemma nth_digit_lt (ds : list nat) (j : nat) :
  Forall (fun d => d < 10)%nat ds -> (nth j ds 0 < 10)%nat.
Proof.
  intros H. destruct (Nat.lt_ge_cases j (List.length ds)) as [Hj|Hj].
  - rewrite List.Forall_forall in H. apply H, nth_In, Hj.
  - rewrite nth_overflow by exact Hj. lia.
Qed.

Lemma repeat_nil_map {A : Type} (xs : list A) :
  repeat ([] : list value) (List.length xs) = map (fun _ => []) xs.
Proof. induction xs as [|x xs IH]; cbn; [reflexivity|]. f_equal. exact IH. Qed.

Lemma fold_columns_map {A X : Type} (h : X -> A -> value) (xs : list X)
  (g : A -> list value) (rs : list A) :
  fold_left (fun acc col => zip_rows acc (map (fun v => [v]) col))
            (map (fun x => map (h x) rs) xs) (map g rs)
  = map (fun r => g r ++ map (fun x => h x r) xs) rs.
Proof.
  revert g. induction xs as [|x xs IH]; intros g; cbn [map fold_left].
  - apply map_ext. intros r. symmetry. apply app_nil_r.
  - rewrite map_map, zip_rows_map, IH.
    apply map_ext. intros r. rewrite <- app_assoc. reflexivity.
Qed.

Lemma rows_of_columns_map {A X : Type} (h : X -> A -> value) (xs : list X)
  (rs : list A) :
  rows_of_columns (List.length rs) (map (fun x => map (h x) rs) xs)
  = map (fun r => map (fun x => h x r) xs) rs.
Proof.
  unfold rows_of_columns. rewrite repeat_nil_map.
  exact (fold_columns_map h xs (fun _ => []) rs).
Qed.

Lemma for_each_map_map {A B C : Type} (f : B -> result C) (g : A -> B)
  (h : A -> C) (xs : list A) :
  (forall x, In x xs -> f (g x) = Ok (h x)) ->
  for_each f (map g xs) = Ok (map h xs).
Proof.
  induction xs as [|x xs IH]; intros H; cbn [for_each map]; [reflexivity|].
  rewrite (H x) by (left; reflexivity). cbn [bind].
  rewrite IH by (intros y Hy; apply H; right; exact Hy). reflexivity.
Qed.

Lemma list_max_const {A : Type} (f : A -> nat) (xs : list A) (k : nat) :
  xs <> [] -> (forall x, In x xs -> f x = k) -> list_max (map f xs) = k.
Proof.
  intros Hne H. destruct xs as [|x xs]; [congruence|].
  clear Hne. revert x H. induction xs as [|y xs IH]; intros x H.
  - cbn. rewrite (H x) by (left; reflexivity). lia.
  - change (list_max (map f (x :: y :: xs)))
      with (Nat.max (f x) (list_max (map f (y :: xs)))).
    rewrite IH by (intros z Hz; apply H; right; exact Hz).
    rewrite (H x) by (left; reflexivity). lia.
Qed.

Lemma pad_exact (fields : list string) :
  pad (List.length fields) (Some fields) = map FStr fields.
Proof. unfold pad. rewrite Nat.sub_diag. apply app_nil_r. Qed.

Section Expansion.

Variable df : DataFrame.
Variable labels : list string.
Variable digits : list value -> list nat.

Hypothesis Hcat : count_label "categories" (columns df) = 1%nat.
Hypothesis Hrows : rows df <> [].
Hypothesis Hlabels : labels <> [].
Hypothesis Hnodup : List.NoDup labels.
Hypothesis Hsep : forall l, In l labels -> ~ In ";"%char (chars l).
Hypothesis Hcells : forall r, In r (rows df) ->
  List.length (digits r) = List.length labels
  /\ Forall (fun d => d < 10)%nat (digits r)
  /\ cell "categories" (columns df) r = VStr (encode labels (digits r)).

Let label_cells (r : list value) : list value :=
  map (fun d => VInt (Z.of_nat d)) (digits r).

Lemma split_expand_rows :
  split_expand ";" (map (cell "categories" (columns df)) (rows df))
  = map (fun r => map FStr (pair_fields labels (digits r))) (rows df).
Proof.
  unfold split_expand. rewrite !map_map.
  assert (Hfields : forall r, In r (rows df) ->
            split_cell ";" (cell "categories" (columns df) r)
            = Some (pair_fields labels (digits r))).
  { intros r Hr. destruct (Hcells r Hr) as (Hlen & Hd & ->).
    cbn [split_cell]. f_equal. apply split_encode; assumption. }
  rewrite (list_max_const _ _ (List.length labels) Hrows).
  - apply map_ext_in. intros r Hr. rewrite (Hfields r Hr).
    rewrite <- (pair_fields_length labels (digits r))
      by (apply (Hcells r Hr)).
    apply pad_exact.
  - intros r Hr. rewrite (Hfields r Hr). cbn [fields_length].
    apply pair_fields_length, (Hcells r Hr).
Qed.

Lemma convert_columns_ok :
  for_each
    (convert_column labels
       (map (fun r => map FStr (pair_fields labels (digits r))) (rows df)))
    (indexed labels)
  = Ok (map (fun jc =>
               map (fun r => VInt (Z.of_nat (nth (fst jc) (digits r) 0%nat)))
                   (rows df))
            (indexed labels)).
Proof.
  apply PyFacts.for_each_map. intros [j name] Hjc.
  apply in_indexed in Hjc.
  unfold convert_column. cbn [fst snd].
  rewrite (count_label_NoDup name labels Hnodup)
    by (exact (nth_error_In _ _ Hjc)).
  cbn [Nat.ltb Nat.leb].
  apply for_each_map_map. intros r Hr.
  destruct (Hcells r Hr) as (Hlen & Hd & _).
  rewrite (nth_pair_fields labels (digits r) j name Hlen Hjc).
  rewrite last_as_int_pair_field by (apply nth_digit_lt, Hd).
  reflexivity.
Qed.

Lemma label_rows :
  rows_of_columns (List.length (rows df))
    (map (fun jc =>
            map (fun r => VInt (Z.of_nat (nth (fst jc) (digits r) 0%nat)))
                (rows df))
         (indexed labels))
  = map label_cells (rows df).
Proof.
  rewrite (rows_of_columns_map
             (fun jc r => VInt (Z.of_nat (nth (fst jc) (digits r) 0%nat)))).
  apply map_ext_in. intros r Hr.
  destruct (Hcells r Hr) as (Hlen & _ & _).
  unfold indexed, label_cells.
  rewrite (map_fst_indexed_from
             (fun j => VInt (Z.of_nat (nth j (digits r) 0%nat)))).
  rewrite <- Hlen.
  rewrite <- (map_nth_seq_from (fun d => VInt (Z.of_nat d)) (digits r) 0).
  apply map_ext. intros j. rewrite Nat.sub_0_r. reflexivity.
Qed.

Lemma str_accessor_strings :
  str_accessor (map (cell "categories" (columns df)) (rows df))
  = Ok (map (cell "categories" (columns df)) (rows df)).
Proof.
  unfold str_accessor.
  destruct (map (cell "categories" (columns df)) (rows df))
    as [|v series] eqn:Hseries; [reflexivity|].
  destruct (rows df) as [|r0 rest] eqn:Hdf; [discriminate|].
  cbn [map] in Hseries. injection Hseries as <- _.
  destruct (Hcells r0) as (_ & _ & ->); [left; reflexivity|].
  reflexivity.
Qed.

Lemma iloc_first_rows {A : Type} (f : list value -> list A) :
  exists r0, In r0 (rows df) /\ iloc_first (map f (rows df)) = Ok (f r0).
Proof.
  destruct (rows df) as [|r0 rest]; [congruence|].
  exists r0. split; [left; reflexivity|reflexivity].
Qed.

(** Lines 54-76 on a frame of well-formed category strings. *)
Lemma expand_categories_ok :
  expand_categories df
  = Ok {| columns := drop_cols "categories" (columns df) ++ labels;
          rows := map (fun r => drop_row "categories" (columns df) r
                                ++ label_cells r)
                      (rows df) |}.
Proof.
  unfold expand_categories, get_attr. rewrite Hcat. cbn [bind].
  rewrite str_accessor_strings. cbn [bind].
  rewrite split_expand_rows.
  destruct (iloc_first_rows
              (fun r => map FStr (pair_fields labels (digits r))))
    as (r0 & Hr0 & ->).
  cbn [bind].
  destruct (Hcells r0 Hr0) as (Hlen0 & _ & _).
  rewrite (for_each_map_map slice_label FStr drop_last2)
    by (intros; reflexivity).
  cbn [bind]. rewrite (pair_fields_labels labels (digits r0) Hlen0).
  rewrite convert_columns_ok. cbn [bind].
  unfold drop. rewrite (count_label_exists _ _ Hcat). cbn [bind].
  unfold concat_columns. cbn [columns rows].
  rewrite label_rows, zip_rows_map. reflexivity.
Qed.

End Expansion.

(** *** Dropping [original] after the expansion *)

Lemma drop_row_length_eq (name : string) (cols : list string)
  (row : list value) :
  List.length row = List.length cols ->
  List.length (drop_row name cols row) = List.length (drop_cols name cols).
Proof.
  unfold drop_row, labelled, drop_cols. revert row.
  induction cols as [|c cols IH]; intros [|v row] H;
    try (cbn in H; lia); [reflexivity|].
  cbn [combine List.filter].
  change (keep_label name (c, v)) with (negb (String.eqb name c)).
  specialize (IH row ltac:(cbn in H; lia)).
  destruct (negb (String.eqb name c)); cbn [map List.length]; lia.
Qed.




End ExpandFacts.


Module DedupFacts.




End DedupFacts.



(** The category string ["aid:1;water:0"] gives the columns [aid] = 1
    and [water] = 0. *)
Example clean_data_aid_water :
  ProcessData.clean_data
    {| columns := ["id"; "message"; "original"; "genre"; "categories"];
       rows := [[VInt 1; VStr "help"; VNaN; VStr "direct";
                 VStr "aid:1;water:0"]] |}
  = Ok {| columns := ["id"; "message"; "genre"; "aid"; "water"];
          rows := [[VInt 1; VStr "help"; VStr "direct"; VInt 1; VInt 0]] |}.
Proof. vm_compute. reflexivity. Qed.

(** * Further properties of the two scripts *)

(** ** Reading and joining the two files *)

Module JoinFacts.
Import Spec.

Lemma count_label_absent (name : string) (cols : list string) :
  ~ In name cols -> count_label name cols = 0%nat.
Proof.
  intros Hno. unfold count_label.
  rewrite MergeFacts.filter_none; [reflexivity|].
  intros c Hc. apply String.eqb_neq. intros ->. exact (Hno Hc).
Qed.

Lemma count_label_le_1 (name : string) (cols : list string) :
  List.NoDup cols -> (count_label name cols <= 1)%nat.
Proof.
  unfold count_label. induction 1 as [|c cols Hc _ IH]; [cbn; lia|].
  cbn [List.filter]. destruct (String.eqb name c) eqn:Heq; [|exact IH].
  apply String.eqb_eq in Heq. subst c.
  pose proof (count_label_absent name cols Hc) as H0.
  unfold count_label in H0. cbn [List.length]. rewrite H0. lia.
Qed.

Lemma join_indexers_in (lkeys rkeys : list value) (i j : nat) :
  In (i, j) (join_indexers lkeys rkeys) ->
  exists k, nth_error lkeys i = Some k /\ nth_error rkeys j = Some k.
Proof.
  intros Hin.
  destruct (nth_error lkeys i) as [k|] eqn:Hi.
  - exists k. split; [reflexivity|].
    assert (Hl : In (i, j) (from_left i (join_indexers lkeys rkeys))).
    { apply filter_In. split; [exact Hin|apply Nat.eqb_refl]. }
    unfold join_indexers in Hl.
    pose proof (MergeFacts.from_left_join 0 lkeys rkeys i k Hi) as Hl'.
    cbn [Nat.add] in Hl'. rewrite Hl' in Hl.
    apply in_map_iff in Hl as (j' & Hj' & Hm). injection Hj' as ->.
    apply MergeFacts.matching_from_nth in Hm.
    rewrite Nat.sub_0_r in Hm. exact Hm.
  - exfalso. apply nth_error_None in Hi.
    pose proof (MergeFacts.join_indexers_from_lt 0 lkeys rkeys (i, j) Hin)
      as Hlt.
    cbn in Hlt. lia.
Qed.

Lemma suffixed_disjoint (suffix key : string) (others : list string)
  (c : string) :
  (In c others -> c = key) -> suffixed suffix key others c = c.
Proof.
  intros H. unfold suffixed.
  destruct (String.eqb c key) eqn:Hk; [reflexivity|].
  destruct (existsb (String.eqb c) others) eqn:Hex; [|reflexivity].
  apply existsb_exists in Hex as (o & Ho & Heq).
  apply String.eqb_eq in Heq. subst o.
  apply String.eqb_neq in Hk. destruct (Hk (H Ho)).
Qed.

Lemma drop_cols_count (key : string) (cols : list string) :
  (List.length (drop_cols key cols) + count_label key cols)%nat
  = List.length cols.
Proof.
  unfold drop_cols, count_label.
  induction cols as [|c cols IH]; [reflexivity|].
  cbn [List.filter]. destruct (String.eqb key c); cbn [negb List.length]; lia.
Qed.

Lemma merge_counts (left right df : DataFrame) (key : string) :
  merge left right key = Ok df ->
  count_label key (columns left) = 1%nat
  /\ count_label key (columns right) = 1%nat.
Proof.
  unfold merge.
  destruct (count_label key (columns left)) as [|[|n]];
    destruct (count_label key (columns right)) as [|[|m]];
    try discriminate.
  split; reflexivity.
Qed.

Lemma merge_columns (left right df : DataFrame) (key : string) :
  merge left right key = Ok df ->
  columns df
  = match rows left with
    | _ :: _ =>
        map (suffixed "_x" key (columns right)) (columns left)
        ++ map (suffixed "_y" key (columns left))
               (drop_cols key (columns right))
    | [] =>
        map (suffixed "_x" key (columns right)) (drop_cols key (columns left))
        ++ map (suffixed "_y" key (columns left)) (columns right)
    end.
Proof.
  unfold merge.
  destruct (count_label key (columns left)) as [|[|n]];
    destruct (count_label key (columns right)) as [|[|m]];
    try discriminate.
  intros H. injection H as <-. reflexivity.
Qed.

Lemma merge_columns_length (left right df : DataFrame) (key : string) :
  merge left right key = Ok df ->
  List.length (columns df)
  = (List.length (columns left)
     + List.length (drop_cols key (columns right)))%nat.
Proof.
  intros H. rewrite (merge_columns _ _ _ _ H).
  destruct (merge_counts _ _ _ _ H) as [Hl Hr].
  pose proof (drop_cols_count key (columns left)) as Hcl.
  pose proof (drop_cols_count key (columns right)) as Hcr.
  destruct (rows left); rewrite length_app, !length_map; lia.
Qed.

End JoinFacts.

(** X1: how [load_data] of the ingestion script fails.  An unreadable
    messages file ends it with the reader's error, before the categories
    file is looked at; an unreadable categories file does the same; and
    when both files are read (with distinct column labels, as the CSV
    reader makes them) but one has no [id] column, the join raises
    [KeyError]. *)
Theorem load_data_failures
  (read_csv : string -> result DataFrame)
  (messages_filepath categories_filepath : string) :
  (forall e, read_csv messages_filepath = Raise e ->
     ProcessData.load_data read_csv messages_filepath categories_filepath
     = Raise e)
  /\ (forall messages e,
        read_csv messages_filepath = Ok messages ->
        read_csv categories_filepath = Raise e ->
        ProcessData.load_data read_csv messages_filepath categories_filepath
        = Raise e)
  /\ (forall messages categories,
        read_csv messages_filepath = Ok messages ->
        read_csv categories_filepath = Ok categories ->
        List.NoDup (columns messages) ->
        List.NoDup (columns categories) ->
        ~ In "id" (columns messages) \/ ~ In "id" (columns categories) ->
        ProcessData.load_data read_csv messages_filepath categories_filepath
        = Raise KeyError).
Proof.
  unfold ProcessData.load_data. split; [|split].
  - intros e ->. reflexivity.
  - intros messages e -> ->. reflexivity.
  - intros messages categories -> -> Hm Hc Hno. cbn [bind]. unfold merge.
    pose proof (JoinFacts.count_label_le_1 "id" _ Hm) as Hlm.
    pose proof (JoinFacts.count_label_le_1 "id" _ Hc) as Hlc.
    destruct Hno as [Hno|Hno];
      rewrite (JoinFacts.count_label_absent _ _ Hno) in *.
    + reflexivity.
    + destruct (count_label "id" (columns messages)) as [|[|n]];
        [reflexivity|reflexivity|lia].
Qed.

(** X2: the shape of the merged frame.  When both files are read as
    rectangular frames and the join succeeds, the merged frame is
    rectangular and has one column less than the two files together (one
    [id] is dropped).  When the files share no label but [id], its
    columns are those of the messages followed by those of the categories
    without [id]; unless the messages file has no rows: then it is the
    [id] of the messages that is dropped, and the columns are those of
    the messages without [id] followed by those of the categories. *)
Theorem load_data_rectangular
  (read_csv : string -> result DataFrame)
  (messages_filepath categories_filepath : string)
  (messages categories df : DataFrame) :
  read_csv messages_filepath = Ok messages ->
  read_csv categories_filepath = Ok categories ->
  rectangular messages ->
  rectangular categories ->
  ProcessData.load_data read_csv messages_filepath categories_filepath
    = Ok df ->
  rectangular df
  /\ List.length (columns df)
     = (List.length (columns messages) + List.length (columns categories)
        - 1)%nat
  /\ ((forall l, In l (columns messages) -> In l (columns categories) ->
                 l = "id") ->
      columns df
      = match rows messages with
        | _ :: _ => columns messages ++ drop_cols "id" (columns categories)
        | [] => drop_cols "id" (columns messages) ++ columns categories
        end).
Proof.
  intros Hm Hc Hrm Hrc. unfold ProcessData.load_data.
  rewrite Hm, Hc. cbn [bind]. intros Hmerge.
  pose proof (JoinFacts.merge_columns_length _ _ _ _ Hmerge) as Hlen.
  pose proof (JoinFacts.merge_counts _ _ _ _ Hmerge) as [_ Hcr].
  pose proof (JoinFacts.drop_cols_count "id" (columns categories)) as Hcount.
  split; [|split].
  - unfold rectangular. rewrite (MergeFacts.merge_ok _ _ _ _ Hmerge).
    apply List.Forall_forall. intros r Hr.
    apply in_map_iff in Hr as ([i j] & <- & Hp).
    apply JoinFacts.join_indexers_in in Hp as (k & Hi & Hj).
    assert (Hli : (i < List.length (rows messages))%nat).
    { erewrite <- length_map. apply nth_error_Some. rewrite Hi. discriminate. }
    assert (Hlj : (j < List.length (rows categories))%nat).
    { erewrite <- length_map. apply nth_error_Some. rewrite Hj. discriminate. }
    unfold merged_row. cbn [fst snd]. rewrite length_app, Hlen.
    unfold rectangular in Hrm, Hrc.
    rewrite List.Forall_forall in Hrm, Hrc.
    rewrite (Hrm _ (nth_In _ _ Hli)).
    rewrite (ExpandFacts.drop_row_length_eq "id" (columns categories)
               _ (Hrc _ (nth_In _ _ Hlj))).
    reflexivity.
  - lia.
  - intros Hdisj. rewrite (JoinFacts.merge_columns _ _ _ _ Hmerge).
    assert (Hid : forall (f : string -> string) (l : list string),
              (forall c, In c l -> f c = c) -> map f l = l).
    { intros f l Hf. rewrite <- (map_id l) at 2. apply map_ext_in. exact Hf. }
    destruct (rows messages); f_equal; apply Hid; intros c Hcin;
      apply JoinFacts.suffixed_disjoint; intros Hother.
    + apply filter_In in Hcin as [Hcin _]. exact (Hdisj c Hcin Hother).
    + exact (Hdisj c Hother Hcin).
    + exact (Hdisj c Hcin Hother).
    + apply filter_In in Hcin as [Hcin _]. exact (Hdisj c Hother Hcin).
Qed.

(** A messages file with a header and no rows. *)
Example load_data_empty_messages :
  merge {| columns := ["id"; "message"; "original"; "genre"]; rows := [] |}
        Samples.categories "id"
  = Ok {| columns := ["message"; "original"; "genre"; "id"; "categories"];
          rows := [] |}.
Proof. reflexivity. Qed.

Lemma load_data_rectangular_witness :
  rectangular Samples.merged
  /\ List.length (columns Samples.merged) = 5%nat
  /\ columns Samples.merged
     = columns Samples.messages ++ drop_cols "id" (columns Samples.categories).
Proof.
  destruct (load_data_rectangular Samples.read_csv
              "disaster_messages.csv" "disaster_categories.csv"
              Samples.messages Samples.categories Samples.merged)
    as (Hrect & Hlen & Hcols).
  - reflexivity.
  - reflexivity.
  - repeat constructor.
  - repeat constructor.
  - vm_compute. reflexivity.
  - split; [exact Hrect|]. split; [exact Hlen|]. apply Hcols.
    intros l Hm Hc. cbn in Hm, Hc.
    destruct Hc as [<-|[<-|[]]]; [reflexivity|].
    repeat (destruct Hm as [Hm|Hm]; [discriminate Hm|]). destruct Hm.
Defined.

(** ** What a successful [clean_data] says about its input *)

Module ValidationFacts.
Import Spec ProcessData.

Lemma for_each_in {A B : Type} (f : A -> result B) (xs : list A)
  (ys : list B) (x : A) :
  for_each f xs = Ok ys -> In x xs -> exists y, f x = Ok y.
Proof.
  intros H. apply PyFacts.for_each_ok in H.
  induction H as [|a b l l' Hab _ IH]; intros Hin; [contradiction|].
  destruct Hin as [->|Hin]; [eauto|exact (IH Hin)].
Qed.

Lemma for_each_length {A B : Type} (f : A -> result B) (xs : list A)
  (ys : list B) :
  for_each f xs = Ok ys -> List.length ys = List.length xs.
Proof.
  intros H. apply PyFacts.for_each_ok in H.
  induction H; cbn [List.length]; [reflexivity|f_equal; assumption].
Qed.

Lemma indexed_from_in {A : Type} (l : list A) (start j : nat) (x : A) :
  nth_error l j = Some x ->
  In ((start + j)%nat, x) (combine (seq start (List.length l)) l).
Proof.
  revert start j. induction l as [|a l IH]; intros start [|j] H;
    cbn [nth_error] in H; try discriminate.
  - injection H as ->. rewrite Nat.add_0_r. left. reflexivity.
  - cbn [List.length seq combine]. right.
    replace (start + S j)%nat with (S start + j)%nat by lia.
    apply IH, H.
Qed.

Lemma indexed_in {A : Type} (l : list A) (j : nat) (x : A) :
  nth_error l j = Some x -> In (j, x) (indexed l).
Proof. intros H. exact (indexed_from_in l 0 j x H). Qed.

Lemma pad_length (width : nat) (fields : option (list string)) :
  (fields_length fields <= width)%nat ->
  List.length (pad width fields) = width.
Proof.
  intros H. destruct fields as [fs|]; cbn [pad fields_length] in *.
  - rewrite length_app, length_map, repeat_length. lia.
  - apply repeat_length.
Qed.

Lemma pad_nth_none (width : nat) (fs : list string) (j : nat) :
  (List.length fs <= j)%nat -> nth j (pad width (Some fs)) FNone = FNone.
Proof.
  intros H. cbn [pad]. rewrite app_nth2 by (rewrite length_map; exact H).
  apply nth_repeat.
Qed.

Lemma pad_nth_some (width : nat) (fs : list string) (j : nat)
  (f : string) :
  nth_error fs j = Some f -> nth j (pad width (Some fs)) FNone = FStr f.
Proof.
  intros H. cbn [pad].
  assert (Hlt : (j < List.length fs)%nat)
    by (apply nth_error_Some; rewrite H; discriminate).
  rewrite app_nth1 by (rewrite length_map; exact Hlt).
  apply nth_error_nth. rewrite nth_error_map, H. reflexivity.
Qed.

Lemma pad_nth_nan (width j : nat) :
  (j < width)%nat -> nth j (pad width None) FNone = FNaN.
Proof. intros H. cbn [pad]. apply nth_repeat_lt, H. Qed.

Lemma split_chars_not_nil (sep : ascii) (l : list ascii) :
  Str.split_chars sep l <> [].
Proof.
  destruct l as [|c l]; cbn [Str.split_chars]; [discriminate|].
  destruct (Ascii.eqb c sep); [discriminate|].
  destruct (Str.split_chars sep l); discriminate.
Qed.

Lemma split_length_pos (sep : ascii) (s : string) :
  (0 < List.length (Str.split sep s))%nat.
Proof.
  unfold Str.split. rewrite length_map.
  pose proof (split_chars_not_nil sep (Str.chars s)) as H.
  destruct (Str.split_chars sep (Str.chars s)); [congruence|cbn; lia].
Qed.

(** The width of the expanded frame bounds every row of fields. *)
Lemma width_bounds (fieldss : list (option (list string)))
  (fields : option (list string)) :
  In fields fieldss ->
  (fields_length fields <= list_max (map fields_length fieldss))%nat.
Proof.
  intros Hin.
  pose proof (proj1 (list_max_le (map fields_length fieldss) _)
                (Nat.le_refl _)) as Hall.
  rewrite List.Forall_forall in Hall. apply Hall.
  apply in_map. exact Hin.
Qed.

Lemma expand_categories_fields (df expanded : DataFrame) :
  expand_categories df = Ok expanded ->
  exists width,
    (0 < width)%nat
    /\ forall r, In r (rows df) ->
         exists s,
           cell "categories" (columns df) r = VStr s
           /\ List.length (Str.split ";" s) = width
           /\ forall f, In f (Str.split ";" s) ->
                exists c d, Str.last_char f = Some c
                            /\ Str.int_of_char c = Ok d.
Proof.
  unfold expand_categories. intros H.
  bind_inv H. bind_inv H. bind_inv H. bind_inv H. bind_inv H. clear H.
  unfold get_attr in Hx.
  destruct (count_label "categories" (columns df)) as [|[|n]];
    try discriminate.
  injection Hx as <-.
  unfold str_accessor in Hx0.
  destruct (map (cell "categories" (columns df)) (rows df))
    as [|v l] eqn:Hs.
  { injection Hx0 as <-. discriminate Hx1. }
  destruct (existsb is_str (v :: l)) eqn:Hex; [|discriminate].
  injection Hx0 as <-.
  unfold split_expand in Hx1, Hx3.
  set (fieldss := map (split_cell ";") (v :: l)) in *.
  set (width := list_max (map fields_length fieldss)) in *.
  assert (Hx1' : x1 = pad width (split_cell ";" v)).
  { subst fieldss. cbn [map iloc_first] in Hx1. injection Hx1 as <-.
    reflexivity. }
  assert (Hwidth : List.length x2 = width).
  { rewrite (for_each_length _ _ _ Hx2), Hx1'. apply pad_length.
    apply width_bounds. left. reflexivity. }
  assert (K : forall j fields, (j < width)%nat -> In fields fieldss ->
                exists n, last_as_int (nth j (pad width fields) FNone) = Ok n).
  { intros j fields Hj Hin.
    destruct (nth_error x2 j) as [name|] eqn:Hname;
      [|apply nth_error_None in Hname; lia].
    apply indexed_in in Hname.
    destruct (for_each_in _ _ _ _ Hx3 Hname) as [col Hcol].
    unfold convert_column in Hcol. cbn [fst snd] in Hcol.
    destruct (1 <? count_label name x2)%nat; [discriminate|].
    destruct (for_each_in _ _ _ (pad width fields) Hcol) as [y Hy].
    { apply in_map. exact Hin. }
    bind_inv Hy. eauto. }
  assert (Hpos : (0 < width)%nat).
  { apply existsb_exists in Hex as (w & Hw & Hstr).
    destruct w as [|s|]; try discriminate.
    pose proof (width_bounds fieldss (Some (Str.split ";" s))) as Hb.
    fold width in Hb. cbn [fields_length] in Hb.
    pose proof (split_length_pos ";" s).
    assert (In (Some (Str.split ";" s)) fieldss)
      by (exact (in_map (split_cell ";") _ _ Hw)).
    specialize (Hb ltac:(assumption)). lia. }
  exists width. split; [exact Hpos|].
  intros r Hr.
  assert (Hw : In (cell "categories" (columns df) r) (v :: l)).
  { rewrite <- Hs. apply in_map. exact Hr. }
  set (w := cell "categories" (columns df) r) in *.
  assert (Hf : In (split_cell ";" w) fieldss) by (apply in_map; exact Hw).
  pose proof (width_bounds fieldss _ Hf) as Hle. fold width in Hle.
  destruct w as [n|s|]; cbn [split_cell fields_length] in *.
  { destruct (K 0%nat _ Hpos Hf) as [m Hm].
    rewrite pad_nth_nan in Hm by exact Hpos. discriminate Hm. }
  2:{ destruct (K 0%nat _ Hpos Hf) as [m Hm].
      rewrite pad_nth_nan in Hm by exact Hpos. discriminate Hm. }
  assert (Hlen : List.length (Str.split ";" s) = width).
  { destruct (Nat.eq_dec (List.length (Str.split ";" s)) width) as [|Hne];
      [assumption|].
    destruct (K (List.length (Str.split ";" s)) _ ltac:(lia) Hf) as [n Hn].
    rewrite pad_nth_none in Hn by lia. discriminate Hn. }
  exists s. split; [reflexivity|]. split; [exact Hlen|].
  intros f Hin. apply In_nth_error in Hin as [j Hj].
  assert (Hlt : (j < width)%nat).
  { rewrite <- Hlen. apply nth_error_Some. rewrite Hj. discriminate. }
  destruct (K j _ Hlt Hf) as [n Hn].
  rewrite (pad_nth_some _ _ _ _ Hj) in Hn. unfold last_as_int in Hn.
  destruct (Str.last_char f) as [c|]; [eauto|discriminate].
Qed.

Lemma fold_columns_width (cols : list (list value))
  (acc : list (list value)) (k : nat) :
  (forall r, In r acc -> List.length r = k) ->
  forall r,
    In r (fold_left (fun rs col => zip_rows rs (map (fun v => [v]) col))
                    cols acc) ->
    List.length r = (k + List.length cols)%nat.
Proof.
  revert acc k. induction cols as [|col cols IH]; intros acc k Hacc r Hr;
    cbn [fold_left List.length] in *.
  - rewrite Nat.add_0_r. exact (Hacc r Hr).
  - replace (k + S (List.length cols))%nat
      with (S k + List.length cols)%nat by lia.
    apply (IH _ (S k)) in Hr; [exact Hr|].
    intros r' Hr'.
    apply PandasFacts.zip_rows_in in Hr' as (r1 & r2 & -> & Hr1 & Hr2).
    apply in_map_iff in Hr2 as (v & <- & _).
    rewrite length_app, (Hacc r1 Hr1). cbn. lia.
Qed.

Lemma rows_of_columns_width (nrows : nat) (cols : list (list value))
  (r : list value) :
  In r (rows_of_columns nrows cols) -> List.length r = List.length cols.
Proof.
  unfold rows_of_columns. intros Hr.
  apply (fold_columns_width cols _ 0) in Hr; [exact Hr|].
  intros r' Hr'. apply repeat_spec in Hr'. subst r'. reflexivity.
Qed.

Lemma zip_rows_length (rs1 rs2 : list (list value)) :
  (List.length (zip_rows rs1 rs2) <= List.length rs1)%nat.
Proof.
  revert rs2. induction rs1 as [|r1 rs1 IH]; intros [|r2 rs2];
    cbn [zip_rows List.length]; try lia.
  specialize (IH rs2). lia.
Qed.

Lemma drop_duplicates_from_length (seen rs : list (list value)) :
  (List.length (drop_duplicates_from seen rs) <= List.length rs)%nat.
Proof.
  revert seen. induction rs as [|r rs IH]; intros seen;
    cbn [drop_duplicates_from List.length]; [lia|].
  destruct (bool_decide (r ∈ seen)); cbn [List.length].
  - specialize (IH seen). lia.
  - specialize (IH (r :: seen)). lia.
Qed.

Lemma filter_length_le_all {A : Type} (f : A -> bool) (l : list A) :
  (List.length (List.filter f l) <= List.length l)%nat.
Proof.
  induction l as [|a l IH]; cbn [List.filter List.length]; [lia|].
  destruct (f a); cbn [List.length]; lia.
Qed.

Lemma expand_categories_rectangular (df expanded : DataFrame) :
  rectangular df ->
  expand_categories df = Ok expanded ->
  rectangular expanded
  /\ (List.length (rows expanded) <= List.length (rows df))%nat.
Proof.
  unfold expand_categories. intros Hrect H.
  bind_inv H. bind_inv H. bind_inv H. bind_inv H. bind_inv H. bind_inv H.
  apply PandasFacts.drop_ok in Hx4. injection H as <-. subst x4.
  unfold concat_columns. cbn [columns rows]. split.
  - unfold rectangular. cbn [columns rows].
    apply List.Forall_forall. intros r Hr.
    apply PandasFacts.zip_rows_in in Hr as (r1 & r2 & -> & Hr1 & Hr2).
    apply in_map_iff in Hr1 as (r0 & <- & Hr0).
    apply rows_of_columns_width in Hr2.
    unfold rectangular in Hrect. rewrite List.Forall_forall in Hrect.
    rewrite !length_app, Hr2.
    rewrite (ExpandFacts.drop_row_length_eq _ _ _ (Hrect r0 Hr0)).
    rewrite (for_each_length _ _ _ Hx3). unfold indexed.
    rewrite length_combine, length_seq. lia.
  - etransitivity; [apply zip_rows_length|]. rewrite length_map. lia.
Qed.

End ValidationFacts.

(** X3: [clean_data] on input it cannot split.  Without exactly one
    [categories] column it raises [AttributeError]; on a frame without
    rows it raises as well, [IndexError] (the first row of the split does
    not exist) or, the empty column being numeric, [AttributeError]; and
    when the frame has rows but no cell of the column is a string, [.str]
    raises [AttributeError]. *)
Theorem clean_data_degenerate_input (df : DataFrame) :
  (count_label "categories" (columns df) <> 1%nat ->
   ProcessData.clean_data df = Raise AttributeError)
  /\ (count_label "categories" (columns df) = 1%nat ->
      rows df = [] ->
      ProcessData.clean_data df = Raise IndexError
      \/ ProcessData.clean_data df = Raise AttributeError)
  /\ (count_label "categories" (columns df) = 1%nat ->
      rows df <> [] ->
      (forall r, In r (rows df) ->
         is_str (cell "categories" (columns df) r) = false) ->
      ProcessData.clean_data df = Raise AttributeError).
Proof.
  unfold ProcessData.clean_data, ProcessData.expand_categories, get_attr.
  split; [|split].
  - intros Hne.
    destruct (count_label "categories" (columns df)) as [|[|n]];
      [reflexivity|congruence|reflexivity].
  - intros -> ->. left. reflexivity.
  - intros -> Hrows Hcells. cbn [bind]. unfold str_accessor.
    destruct (rows df) as [|r rs] eqn:Hr; [congruence|].
    cbn [map].
    replace (existsb is_str _) with false; [reflexivity|].
    symmetry. apply not_true_is_false. intros Hex.
    apply existsb_exists in Hex as (v & Hv & Hstr).
    change (In v (map (cell "categories" (columns df)) (r :: rs))) in Hv.
    apply in_map_iff in Hv as (r' & <- & Hr').
    rewrite (Hcells r' Hr') in Hstr. discriminate.
Qed.

Example clean_data_degenerate_samples :
  ProcessData.clean_data Samples.cleaned = Raise AttributeError
  /\ ProcessData.clean_data
       {| columns := ["id"; "message"; "original"; "genre"; "categories"];
          rows := [[VInt 1; VStr "help"; VNaN; VStr "direct"; VNaN]] |}
     = Raise AttributeError.
Proof. repeat split. Qed.

(** X4: the column [original] has to be there.  On a merged frame whose
    category strings are well formed (as in the expansion theorem) but
    which has no column called [original], the expansion goes through and
    [clean_data] then raises [KeyError] at [df.drop('original', axis=1)]. *)
Theorem clean_data_requires_original
  (df : DataFrame) (labels : list string) (digits : list value -> list nat) :
  count_label "categories" (columns df) = 1%nat ->
  ~ In "original" (columns df) ->
  rows df <> [] ->
  labels <> [] ->
  List.NoDup labels ->
  ~ In "original" labels ->
  (forall l, In l labels -> ~ In ";"%char (Str.chars l)) ->
  (forall r, In r (rows df) ->
     List.length (digits r) = List.length labels
     /\ Forall (fun d => d < 10)%nat (digits r)
     /\ cell "categories" (columns df) r
        = VStr (Spec.encode labels (digits r))) ->
  ProcessData.clean_data df = Raise KeyError.
Proof.
  intros Hcat Horig Hrows Hlabels Hnodup Hnot Hsep Hcells.
  unfold ProcessData.clean_data.
  rewrite (ExpandFacts.expand_categories_ok df labels digits
             Hcat Hrows Hlabels Hnodup Hsep Hcells).
  cbn [bind]. unfold drop, drop_duplicates. cbn [columns rows].
  replace (existsb _ _) with false; [reflexivity|].
  symmetry. apply not_true_is_false. intros Hex.
  apply existsb_exists in Hex as (c & Hc & Heq).
  apply String.eqb_eq in Heq. subst c.
  apply in_app_or in Hc as [Hc|Hc]; [|exact (Hnot Hc)].
  apply filter_In in Hc as [Hc _]. exact (Horig Hc).
Qed.

Lemma clean_data_requires_original_witness :
  ProcessData.clean_data Samples.without_original = Raise KeyError.
Proof.
  apply (clean_data_requires_original Samples.without_original
           ["aid"; "water"] (fun _ => [1; 0]%nat)).
  - reflexivity.
  - cbn. intuition discriminate.
  - discriminate.
  - discriminate.
  - repeat constructor; cbn; intuition discriminate.
  - cbn. intuition discriminate.
  - intros l [<-|[<-|[]]]; cbn; intuition discriminate.
  - intros r [<-|[]]. split; [reflexivity|].
    split; [repeat constructor; lia|reflexivity].
Defined.

(** X5: what [clean_data] accepts.  Whenever it returns a frame, every
    row of the input had a string under [categories], all these strings
    have the same number (at least one) of [";"]-separated fields, no
    field is empty, and a field whose last character is an ASCII
    character ends in one of the digits 0 to 9; a missing or ragged
    category string, an empty field or a field ending in another ASCII
    character makes it raise. *)
Theorem clean_data_accepts_only_digit_fields (df out : DataFrame) :
  ProcessData.clean_data df = Ok out ->
  exists width,
    (0 < width)%nat
    /\ forall r, In r (rows df) ->
         exists s,
           cell "categories" (columns df) r = VStr s
           /\ List.length (Str.split ";" s) = width
           /\ forall f, In f (Str.split ";" s) ->
                exists c, Str.last_char f = Some c
                          /\ ((nat_of_ascii c < 128)%nat ->
                              (48 <= nat_of_ascii c <= 57)%nat).
Proof.
  intros Hclean.
  apply CleanFacts.clean_data_stages in Hclean as (expanded & Hexp & _).
  destruct (ValidationFacts.expand_categories_fields df expanded Hexp)
    as (width & Hpos & Hrows).
  exists width. split; [exact Hpos|]. intros r Hr.
  destruct (Hrows r Hr) as (s & Hs & Hlen & Hfields).
  exists s. split; [exact Hs|]. split; [exact Hlen|].
  intros f Hf. destruct (Hfields f Hf) as (c & d & Hc & Hd).
  exists c. split; [exact Hc|]. intros _.
  unfold Str.int_of_char in Hd.
  destruct ((48 <=? nat_of_ascii c)%nat && (nat_of_ascii c <=? 57)%nat)
    eqn:Hdigit; [|discriminate].
  apply andb_true_iff in Hdigit as [Hlo Hhi].
  apply Nat.leb_le in Hlo, Hhi. lia.
Qed.

Lemma clean_data_accepts_only_digit_fields_witness :
  exists width,
    (0 < width)%nat
    /\ forall r, In r (rows Samples.merged) ->
         exists s,
           cell "categories" (columns Samples.merged) r = VStr s
           /\ List.length (Str.split ";" s) = width
           /\ forall f, In f (Str.split ";" s) ->
                exists c, Str.last_char f = Some c
                          /\ ((nat_of_ascii c < 128)%nat ->
                              (48 <= nat_of_ascii c <= 57)%nat).
Proof.
  apply (clean_data_accepts_only_digit_fields Samples.merged Samples.cleaned).
  vm_compute. reflexivity.
Defined.

Example clean_data_rejects_samples :
  ProcessData.clean_data
    {| columns := ["id"; "message"; "original"; "genre"; "categories"];
       rows := [[VInt 1; VStr "help"; VNaN; VStr "direct";
                 VStr "aid:1;water:0"];
                [VInt 2; VStr "rain"; VNaN; VStr "news"; VStr "aid:1"]] |}
  = Raise TypeError
  /\ ProcessData.clean_data
       {| columns := ["id"; "message"; "original"; "genre"; "categories"];
          rows := [[VInt 1; VStr "help"; VNaN; VStr "direct";
                    VStr "aid:yes;water:0"]] |}
     = Raise ValueError
  /\ ProcessData.clean_data
       {| columns := ["id"; "message"; "original"; "genre"; "categories"];
          rows := [[VInt 1; VStr "help"; VNaN; VStr "direct";
                    VStr "aid:1;water:0"];
                   [VInt 2; VStr "rain"; VNaN; VStr "news"; VNaN]] |}
     = Raise ValueError.
Proof. repeat split. Qed.

(** X6: the shape of the cleaned frame.  On a rectangular input a
    successful [clean_data] returns a rectangular frame without a column
    called [original] and with no more rows than the input. *)
Theorem clean_data_shape (df out : DataFrame) :
  rectangular df ->
  ProcessData.clean_data df = Ok out ->
  rectangular out
  /\ ~ In "original" (columns out)
  /\ (List.length (rows out) <= List.length (rows df))%nat.
Proof.
  intros Hrect Hclean.
  apply CleanFacts.clean_data_stages in Hclean as (expanded & Hexp & ->).
  destruct (ValidationFacts.expand_categories_rectangular df expanded
              Hrect Hexp) as [Hre Hle].
  cbn [dropna columns rows]. split; [|split].
  - unfold rectangular. cbn [columns rows].
    apply List.Forall_forall. intros r Hr.
    apply filter_In in Hr as [Hr _].
    apply in_map_iff in Hr as (r' & <- & Hr').
    apply PandasFacts.drop_duplicates_from_incl in Hr' as [Hr' _].
    apply ExpandFacts.drop_row_length_eq.
    unfold rectangular in Hre. rewrite List.Forall_forall in Hre.
    exact (Hre r' Hr').
  - apply PandasFacts.drop_cols_not_in.
  - etransitivity; [apply ValidationFacts.filter_length_le_all|].
    rewrite length_map.
    etransitivity; [apply ValidationFacts.drop_duplicates_from_length|].
    exact Hle.
Qed.

Lemma clean_data_shape_witness :
  rectangular Samples.cleaned
  /\ ~ In "original" (columns Samples.cleaned)
  /\ (List.length (rows Samples.cleaned)
      <= List.length (rows Samples.merged))%nat.
Proof.
  apply (clean_data_shape Samples.merged Samples.cleaned).
  - repeat constructor.
  - vm_compute. reflexivity.
Defined.

(** ** The stored table and the ingestion script *)

(** X8: the ingestion script writes all or nothing.  Whatever the
    arguments and the files, after [main] the disk is either unchanged, or
    the script was given three paths, every step succeeded, the
    destination had no such table before, and the only change is the new
    table holding the cleaned join of the two files. *)
Theorem main_all_or_nothing
  (read_csv : string -> result DataFrame) (argv : list string)
  (disk : gmap string (gmap string DataFrame)) :
  snd (ProcessData.main read_csv argv disk) = disk
  \/ exists script messages_filepath categories_filepath database_filepath
            merged cleaned,
       argv = [script; messages_filepath; categories_filepath;
               database_filepath]
       /\ fst (fst (ProcessData.main read_csv argv disk)) = Ok tt
       /\ ProcessData.load_data read_csv messages_filepath
            categories_filepath = Ok merged
       /\ ProcessData.clean_data merged = Ok cleaned
       /\ ProcessData.open_database database_filepath disk
            !! "InsertTableName" = None
       /\ snd (ProcessData.main read_csv argv disk)
          = <[database_filepath :=
                <["InsertTableName" := cleaned]>
                  (ProcessData.open_database database_filepath disk)]> disk.
Proof.
  destruct argv as [|script [|mf [|cf [|dbf [|extra rest]]]]];
    try (left; reflexivity).
  unfold ProcessData.main.
  destruct (ProcessData.load_data read_csv mf cf) as [merged|e] eqn:Hload;
    [|left; reflexivity].
  destruct (ProcessData.clean_data merged) as [cleaned|e] eqn:Hclean;
    [|left; reflexivity].
  unfold ProcessData.save_data.
  destruct (ProcessData.to_sql cleaned "InsertTableName"
              (ProcessData.open_database dbf disk)) as [db|e] eqn:Hsql;
    [|left; reflexivity].
  apply StoreFacts.to_sql_ok in Hsql as (_ & Hnone & ->).
  right. exists script, mf, cf, dbf, merged, cleaned.
  repeat split; try assumption.
  apply StoreFacts.has_table_absent, Hnone.
Qed.





(** ** The training script's loader *)


(** X12: what the loader returns.  For a stored rectangular table with a
    [message] column, [X] has one message per row, [Y] has one row per
    row of the table and is rectangular, its columns are the table's
    columns from the fifth on and are returned as [category_names]; a
    table of four columns or fewer gives a label matrix without
    columns. *)
Theorem load_data_label_matrix
  (database_filepath : string)
  (disk : gmap string (gmap string DataFrame)) (df : DataFrame) :
  ProcessData.open_database database_filepath disk !! "InsertTableName"
    = Some df ->
  In "message" (columns df) ->
  rectangular df ->
  exists X Y category_names,
    TrainClassifier.load_data database_filepath disk
      = Ok (X, Y, category_names)
    /\ X = map (cell "message" (columns df)) (rows df)
    /\ List.length (rows Y) = List.length (rows df)
    /\ rectangular Y
    /\ category_names = columns Y
    /\ columns Y = skipn 4 (columns df)
    /\ ((List.length (columns df) <= 4)%nat ->
        category_names = [] /\ Forall (fun r => r = []) (rows Y)).
Proof.
  intros Htable Hmsg Hrect.
  unfold TrainClassifier.load_data, TrainClassifier.read_sql_table.
  rewrite Htable. cbn [bind]. unfold get_item.
  replace (existsb _ _) with true.
  2:{ symmetry. apply existsb_exists. exists "message".
      split; [exact Hmsg|reflexivity]. }
  cbn [bind]. do 3 eexists. split; [reflexivity|].
  unfold iloc_columns_from. cbn [columns rows].
  unfold rectangular in *. cbn [columns rows].
  rewrite List.Forall_forall in Hrect.
  repeat split.
  - apply length_map.
  - apply List.Forall_forall. intros r Hr.
    apply in_map_iff in Hr as (r' & <- & Hr').
    rewrite !length_skipn, (Hrect r' Hr'). reflexivity.
  - apply skipn_all2. exact H.
  - apply List.Forall_forall. intros r Hr.
    apply in_map_iff in Hr as (r' & <- & Hr').
    apply skipn_all2. rewrite (Hrect r' Hr'). exact H.
Qed.

Lemma load_data_label_matrix_witness :
  exists X Y category_names,
    TrainClassifier.load_data "DisasterResponse.db"
      {[ "DisasterResponse.db" := {[ "InsertTableName" := Samples.cleaned ]} ]}
      = Ok (X, Y, category_names)
    /\ X = [VStr "help"; VStr "help"]
    /\ category_names = ["water"].
Proof.
  destruct (load_data_label_matrix "DisasterResponse.db"
              {[ "DisasterResponse.db" :=
                   {[ "InsertTableName" := Samples.cleaned ]} ]}
              Samples.cleaned)
    as (X & Y & names & Hload & HX & _ & _ & Hnames & Hcols & _).
  - reflexivity.
  - cbn. tauto.
  - repeat constructor.
  - exists X, Y, names. split; [exact Hload|]. split; [exact HX|].
    rewrite Hnames, Hcols. reflexivity.
Defined.

(** ** The tokens of [tokenize] *)

Module TokenFacts.
Import Spec Str StrFacts TrainClassifier.

Lemma lower_char_not_upper (c : ascii) :
  ~ (65 <= nat_of_ascii (lower_char c) <= 90)%nat.
Proof.
  unfold lower_char.
  destruct ((65 <=? nat_of_ascii c)%nat && (nat_of_ascii c <=? 90)%nat)
    eqn:Hup.
  - apply andb_true_iff in Hup as [Hlo Hhi].
    apply Nat.leb_le in Hlo, Hhi.
    rewrite nat_ascii_embedding by lia. lia.
  - apply andb_false_iff in Hup as [Hlo|Hhi].
    + apply Nat.leb_gt in Hlo. lia.
    + apply Nat.leb_gt in Hhi. lia.
Qed.

Lemma lstrip_suffix (l : list ascii) : exists p, l = p ++ lstrip_chars l.
Proof.
  induction l as [|c l [p IH]]; [exists []; reflexivity|].
  cbn [lstrip_chars]. destruct (is_space c).
  - exists (c :: p). cbn [app]. f_equal. exact IH.
  - exists []. reflexivity.
Qed.

Lemma lstrip_head (l : list ascii) (c : ascii) (r : list ascii) :
  lstrip_chars l = c :: r -> is_space c = false.
Proof.
  induction l as [|a l IH]; cbn [lstrip_chars]; [discriminate|].
  destruct (is_space a) eqn:Ha; [exact IH|].
  intros H. injection H as <- _. exact Ha.
Qed.

Lemma lstrip_Forall (P : ascii -> Prop) (l : list ascii) :
  Forall P l -> Forall P (lstrip_chars l).
Proof.
  intros H. destruct (lstrip_suffix l) as [p Hp].
  rewrite Hp in H. apply List.Forall_app in H as [_ H]. exact H.
Qed.

Lemma rev_head_last {A : Type} (rest : list A) (c : A) :
  exists t, rev rest ++ [c] = List.last rest c :: t.
Proof.
  destruct (rev rest) as [|y ys] eqn:Hr.
  - apply (f_equal (@rev A)) in Hr. rewrite rev_involutive in Hr.
    cbn in Hr. subst rest. exists []. reflexivity.
  - apply (f_equal (@rev A)) in Hr. rewrite rev_involutive in Hr.
    cbn [rev] in Hr. subst rest. rewrite List.last_last.
    exists (ys ++ [c]). reflexivity.
Qed.

Lemma strip_lower_is_lower (s : string) : is_lower (strip (lower s)).
Proof.
  unfold is_lower, strip. rewrite chars_of_chars.
  apply List.Forall_rev, lstrip_Forall, List.Forall_rev, lstrip_Forall.
  unfold lower. rewrite chars_of_chars.
  apply List.Forall_forall. intros c Hc.
  apply in_map_iff in Hc as (c' & <- & _). apply lower_char_not_upper.
Qed.

Lemma strip_is_stripped (s : string) : is_stripped (strip s).
Proof.
  unfold is_stripped, strip. rewrite chars_of_chars.
  set (l := lstrip_chars (chars s)).
  set (l' := lstrip_chars (rev l)).
  destruct (rev l') as [|c rest] eqn:Hrev; [exact I|].
  assert (Hl' : l' = rev rest ++ [c]).
  { apply (f_equal (@rev ascii)) in Hrev. rewrite rev_involutive in Hrev.
    exact Hrev. }
  split.
  - destruct (lstrip_suffix (rev l)) as [p Hp]. fold l' in Hp.
    apply (f_equal (@rev ascii)) in Hp.
    rewrite rev_involutive, rev_app_distr, Hrev in Hp.
    apply (lstrip_head (chars s) c (rest ++ rev p)). exact Hp.
  - destruct (rev_head_last rest c) as [t Ht].
    apply (lstrip_head (rev l) _ t). fold l'. rewrite Hl'. exact Ht.
Qed.

Lemma is_prefix_app_l (p q l : list ascii) :
  is_prefix (p ++ q) l = true -> is_prefix p l = true.
Proof.
  revert l. induction p as [|a p IH]; intros l H; [reflexivity|].
  destruct l as [|b l]; cbn [app is_prefix] in *; [discriminate|].
  apply andb_true_iff in H as [Hab H].
  rewrite Hab. cbn [andb]. exact (IH l H).
Qed.

Lemma match_at_needs_http (l : list ascii) :
  is_prefix (chars "http") l = false -> Url.match_at l = None.
Proof.
  intros H. unfold Url.match_at.
  destruct (is_prefix (chars "https://") l) eqn:H1.
  { change (chars "https://") with (chars "http" ++ chars "s://") in H1.
    apply is_prefix_app_l in H1. congruence. }
  destruct (is_prefix (chars "http://") l) eqn:H2.
  { change (chars "http://") with (chars "http" ++ chars "://") in H2.
    apply is_prefix_app_l in H2. congruence. }
  reflexivity.
Qed.

Lemma findall_from_without_http (l : list ascii) (k : nat) :
  contains_chars (chars "http") l = false -> Url.findall_from k l = [].
Proof.
  revert k. induction l as [|c l IH]; intros k H; [reflexivity|].
  cbn [contains_chars] in H. apply orb_false_iff in H as [Hp Hc].
  cbn [Url.findall_from]. destruct k as [|k]; [|exact (IH k Hc)].
  rewrite (match_at_needs_http _ Hp). exact (IH 0%nat Hc).
Qed.

End TokenFacts.

Module IdempotenceFacts.
Import Spec Str StrFacts TrainClassifier.

Lemma lower_char_fixed (c : ascii) :
  ~ (65 <= nat_of_ascii c <= 90)%nat -> lower_char c = c.
Proof.
  intros H. unfold lower_char.
  destruct ((65 <=? nat_of_ascii c)%nat && (nat_of_ascii c <=? 90)%nat)
    eqn:Hup; [|reflexivity].
  apply andb_true_iff in Hup as [Hlo Hhi].
  apply Nat.leb_le in Hlo, Hhi. lia.
Qed.

Lemma lower_fixed (s : string) : is_lower s -> lower s = s.
Proof.
  unfold is_lower, lower. intros H.
  rewrite <- (of_chars_chars s) at 2. f_equal.
  induction H as [|c l Hc _ IH]; [reflexivity|].
  cbn [map]. rewrite (lower_char_fixed c Hc), IH. reflexivity.
Qed.

Lemma lstrip_fixed (c : ascii) (l : list ascii) :
  is_space c = false -> lstrip_chars (c :: l) = c :: l.
Proof. intros H. cbn [lstrip_chars]. rewrite H. reflexivity. Qed.

Lemma strip_fixed (s : string) : is_stripped s -> strip s = s.
Proof.
  unfold is_stripped, strip. intros H.
  rewrite <- (of_chars_chars s) at 2. f_equal.
  destruct (chars s) as [|c rest]; [reflexivity|].
  destruct H as [Hfirst Hlast].
  rewrite (lstrip_fixed c rest Hfirst).
  destruct (TokenFacts.rev_head_last rest c) as [t Ht].
  cbn [rev]. rewrite Ht, (lstrip_fixed _ t Hlast), <- Ht.
  rewrite rev_app_distr, rev_involutive. reflexivity.
Qed.

(** A cleaned token is cleaned again by the lemmatizer alone. *)
Lemma clean_tok_fixed (lemmatize : string -> string) (raw : string) :
  let t := clean_tok lemmatize raw in
  lemmatize t = t -> clean_tok lemmatize t = t.
Proof.
  intros t Hlem. unfold clean_tok at 1. rewrite Hlem. unfold t, clean_tok.
  rewrite (lower_fixed _ (TokenFacts.strip_lower_is_lower _)).
  apply strip_fixed, TokenFacts.strip_is_stripped.
Qed.

Lemma is_prefix_within (sep : ascii) (p x y : list ascii) :
  ~ In sep p -> is_prefix p (x ++ sep :: y) = true -> is_prefix p x = true.
Proof.
  revert x. induction p as [|h p IH]; intros x Hsep H; [reflexivity|].
  destruct x as [|c x]; cbn [app is_prefix] in *.
  - apply andb_true_iff in H as [Hh _]. apply Ascii.eqb_eq in Hh.
    exfalso. apply Hsep. left. exact Hh.
  - apply andb_true_iff in H as [Hh H]. rewrite Hh. cbn [andb].
    apply IH; [|exact H]. intros Hin. apply Hsep. right. exact Hin.
Qed.

Lemma contains_chars_sep (sep : ascii) (p a b : list ascii) :
  p <> [] -> ~ In sep p ->
  contains_chars p a = false -> contains_chars p b = false ->
  contains_chars p (a ++ sep :: b) = false.
Proof.
  intros Hp Hsep Ha Hb. induction a as [|c a IH].
  - cbn [app contains_chars]. rewrite Hb, orb_false_r.
    destruct p as [|h p]; [congruence|]. cbn [is_prefix].
    destruct (Ascii.eqb h sep) eqn:Hh; [|reflexivity].
    apply Ascii.eqb_eq in Hh. exfalso. apply Hsep. left. exact Hh.
  - cbn [contains_chars] in Ha. apply orb_false_iff in Ha as [Hpre Ha].
    change ((c :: a) ++ sep :: b) with (c :: (a ++ sep :: b)).
    cbn [contains_chars]. rewrite (IH Ha), orb_false_r.
    apply not_true_is_false. intros H.
    apply (is_prefix_within sep p (c :: a) b Hsep) in H. congruence.
Qed.

(** Joining with blanks makes no ["http"] that is in none of the
    tokens. *)
Lemma join_without_http (tokens : list string) :
  (forall t, In t tokens -> contains "http" t = false) ->
  contains "http" (join " " tokens) = false.
Proof.
  unfold contains. induction tokens as [|t tokens IH]; intros H;
    [reflexivity|].
  destruct tokens as [|t' tokens]; [apply H; left; reflexivity|].
  change (join " " (t :: t' :: tokens))
    with (t +:+ " " +:+ join " " (t' :: tokens)).
  rewrite !EncodeFacts.chars_append.
  change (chars " ") with [" "%char]. cbn [app].
  apply contains_chars_sep.
  - discriminate.
  - cbn. intuition discriminate.
  - apply H. left. reflexivity.
  - apply IH. intros x Hx. apply H. right. exact Hx.
Qed.

End IdempotenceFacts.

(** A URL-like token that the first pass leaves is replaced by the
    second. *)
Example tokenize_url_left_over :
  let tokenize := TrainClassifier.tokenize Toy.word_tokenize Toy.no_lemmatize in
  tokenize "http://b http://http://b"
    = ["urlplaceholder"; "http://urlplaceholder"]
  /\ tokenize (Str.join " " (tokenize "http://b http://http://b"))
     = ["urlplaceholder"; "urlplaceholder"].
Proof. split; reflexivity. Qed.

(** C8 (amended): tokenizing the joined tokens of a text gives these
    tokens again whenever the lemmatizer leaves every one of them
    unchanged, none of them contains ["http"], and the word tokenizer
    splits the tokens joined by blanks back into themselves.  (The tokens
    being lower-case and stripped already, lowering and stripping them
    again changes nothing, and without ["http"] there is no URL to
    replace.) *)
Theorem tokenize_idempotent_when_stable
  (word_tokenize : string -> list string) (lemmatize : string -> string)
  (text : string) :
  let tokens := TrainClassifier.tokenize word_tokenize lemmatize text in
  (forall t, In t tokens -> lemmatize t = t) ->
  (forall t, In t tokens -> Str.contains "http" t = false) ->
  word_tokenize (Str.join " " tokens) = tokens ->
  TrainClassifier.tokenize word_tokenize lemmatize (Str.join " " tokens)
  = tokens.
Proof.
  intros tokens Hlem Hhttp Hsplit.
  pose proof (IdempotenceFacts.join_without_http tokens Hhttp) as Hjoin.
  unfold TrainClassifier.tokenize at 1, TrainClassifier.replace_urls.
  unfold Url.findall.
  rewrite (TokenFacts.findall_from_without_http _ 0 Hjoin).
  cbn [map fold_left]. rewrite Hsplit.
  rewrite <- (map_id tokens) at 2. apply map_ext_in. intros t Ht.
  pose proof (Hlem t Ht) as Hfix.
  unfold tokens, TrainClassifier.tokenize in Ht.
  apply in_map_iff in Ht as (raw & <- & _).
  exact (IdempotenceFacts.clean_tok_fixed lemmatize raw Hfix).
Qed.

Lemma tokenize_idempotent_when_stable_witness :
  let tokenize := TrainClassifier.tokenize Toy.word_tokenize Toy.lemmatize in
  tokenize "Send dogs to http://example.com/path now"
    = ["send"; "dog"; "to"; "urlplaceholder"; "now"]
  /\ tokenize
       (Str.join " " (tokenize "Send dogs to http://example.com/path now"))
     = tokenize "Send dogs to http://example.com/path now".
Proof.
  split; [reflexivity|].
  apply (tokenize_idempotent_when_stable Toy.word_tokenize Toy.lemmatize
           "Send dogs to http://example.com/path now").
  - intros t Ht. vm_compute in Ht.
    repeat (destruct Ht as [<-|Ht]; [reflexivity|]). destruct Ht.
  - intros t Ht. vm_compute in Ht.
    repeat (destruct Ht as [<-|Ht]; [reflexivity|]). destruct Ht.
  - reflexivity.
Defined.

(** X13: every token that [tokenize] returns is normalised: it has no
    upper-case ASCII letter and neither begins nor ends with white space,
    whatever the word tokenizer and the lemmatizer return. *)
Theorem tokenize_tokens_normalised
  (word_tokenize : string -> list string) (lemmatize : string -> string)
  (text : string) :
  Forall (fun tok => Spec.is_lower tok /\ Spec.is_stripped tok)
         (TrainClassifier.tokenize word_tokenize lemmatize text).
Proof.
  unfold TrainClassifier.tokenize. apply List.Forall_forall. intros tok Htok.
  apply in_map_iff in Htok as (raw & <- & _).
  unfold TrainClassifier.clean_tok. split.
  - apply TokenFacts.strip_lower_is_lower.
  - apply TokenFacts.strip_is_stripped.
Qed.

Example tokenize_normalises_sample :
  TrainClassifier.tokenize Toy.word_tokenize Toy.lemmatize
    "  WATER Needed in Port-au-Prince " = ["water"; "needed"; "in";
                                           "port-au-prince"].
Proof. reflexivity. Qed.

(** X14: a text without the substring ["http"] has no URL: the
    replacement leaves it as it is, and its tokens are the cleaned tokens
    of the text itself. *)
Theorem tokenize_without_http
  (word_tokenize : string -> list string) (lemmatize : string -> string)
  (text : string) :
  Str.contains "http" text = false ->
  Url.findall text = []
  /\ TrainClassifier.replace_urls text = text
  /\ TrainClassifier.tokenize word_tokenize lemmatize text
     = map (TrainClassifier.clean_tok lemmatize) (word_tokenize text).
Proof.
  intros H.
  assert (Hnone : Url.findall text = []).
  { unfold Url.findall.
    rewrite (TokenFacts.findall_from_without_http _ 0 H). reflexivity. }
  assert (Hsame : TrainClassifier.replace_urls text = text).
  { unfold TrainClassifier.replace_urls. rewrite Hnone. reflexivity. }
  split; [exact Hnone|]. split; [exact Hsame|].
  unfold TrainClassifier.tokenize. rewrite Hsame. reflexivity.
Qed.

Lemma tokenize_without_http_witness :
  Url.findall "We need water" = []
  /\ TrainClassifier.replace_urls "We need water" = "We need water"
  /\ TrainClassifier.tokenize Toy.word_tokenize Toy.lemmatize "We need water"
     = map (TrainClassifier.clean_tok Toy.lemmatize)
           (Toy.word_tokenize "We need water").
Proof.
  apply (tokenize_without_http Toy.word_tokenize Toy.lemmatize).
  reflexivity.
Defined.

(** ** What the URL pattern finds *)

Module PatternFacts.
Import Spec Str StrFacts.

Lemma findall_from_in (l : list ascii) (k : nat) (u : list ascii) :
  In u (Url.findall_from k l) ->
  exists pre suf n,
    l = pre ++ suf /\ Url.match_at suf = Some n /\ u = firstn n suf.
Proof.
  revert k. induction l as [|c l IH]; intros k H; [contradiction|].
  cbn [Url.findall_from] in H.
  assert (Hrest : forall k', In u (Url.findall_from k' l) ->
            exists pre suf n,
              c :: l = pre ++ suf /\ Url.match_at suf = Some n
              /\ u = firstn n suf).
  { intros k' Hk'. destruct (IH k' Hk') as (pre & suf & n & -> & Hm & ->).
    exists (c :: pre), suf, n. repeat split. exact Hm. }
  destruct k as [|k]; [|exact (Hrest k H)].
  destruct (Url.match_at (c :: l)) as [n|] eqn:Hm; [|exact (Hrest _ H)].
  destruct H as [<-|H]; [|exact (Hrest _ H)].
  exists [], (c :: l), n. repeat split. exact Hm.
Qed.

Lemma match_at_some (l : list ascii) (n : nat) :
  Url.match_at l = Some n ->
  exists scheme,
    (scheme = "https://" \/ scheme = "http://")
    /\ is_prefix (chars scheme) l = true
    /\ n = (String.length scheme
            + Url.url_run (skipn (String.length scheme) l))%nat
    /\ (0 < Url.url_run (skipn (String.length scheme) l))%nat.
Proof.
  unfold Url.match_at.
  destruct (is_prefix (chars "https://") l) eqn:H1.
  - destruct (Url.url_run (skipn (String.length "https://") l) =? 0)%nat
      eqn:Hz; [discriminate|].
    apply Nat.eqb_neq in Hz. intros H. injection H as <-.
    exists "https://". repeat split; [left; reflexivity|exact H1|lia].
  - destruct (is_prefix (chars "http://") l) eqn:H2; [|discriminate].
    destruct (Url.url_run (skipn (String.length "http://") l) =? 0)%nat
      eqn:Hz; [discriminate|].
    apply Nat.eqb_neq in Hz. intros H. injection H as <-.
    exists "http://". repeat split; [right; reflexivity|exact H2|lia].
Qed.

Lemma is_prefix_split (p l : list ascii) :
  is_prefix p l = true -> l = p ++ skipn (List.length p) l.
Proof.
  revert l. induction p as [|a p IH]; intros l H; [reflexivity|].
  destruct l as [|b l]; cbn [is_prefix] in H; [discriminate|].
  apply andb_true_iff in H as [Hab H]. apply Ascii.eqb_eq in Hab. subst b.
  cbn [List.length skipn app]. f_equal. exact (IH l H).
Qed.

Lemma url_char_no_space (c : ascii) :
  url_char c = true -> is_space c = false.
Proof.
  destruct c as [[|] [|] [|] [|] [|] [|] [|] [|]];
    vm_compute; intros H; congruence.
Qed.

Lemma hex_no_space (c : ascii) : Url.hex c = true -> is_space c = false.
Proof.
  destruct c as [[|] [|] [|] [|] [|] [|] [|] [|]];
    vm_compute; intros H; congruence.
Qed.

Lemma url_run_bounded (n : nat) (l : list ascii) :
  (List.length l <= n)%nat ->
  (Url.url_run l <= List.length l)%nat
  /\ Forall (fun c => is_space c = false) (firstn (Url.url_run l) l).
Proof.
  revert l. induction n as [|n IH]; intros l Hl.
  - destruct l; [|cbn in Hl; lia]. split; [cbn; lia|constructor].
  - destruct l as [|c rest]; [split; [cbn; lia|constructor]|].
    cbn [List.length] in Hl. cbn [Url.url_run].
    fold (url_char c). destruct (url_char c) eqn:Hc.
    + destruct (IH rest ltac:(lia)) as [Hle Hall].
      cbn [firstn List.length]. split; [lia|].
      constructor; [exact (url_char_no_space c Hc)|exact Hall].
    + destruct rest as [|h1 [|h2 rest']];
        try (split; [cbn; lia|constructor]).
      destruct (Ascii.eqb c "%" && Url.hex h1 && Url.hex h2) eqn:Hp;
        [|split; [cbn; lia|constructor]].
      apply andb_true_iff in Hp as [Hp Hh2].
      apply andb_true_iff in Hp as [Hpc Hh1].
      apply Ascii.eqb_eq in Hpc. subst c.
      cbn [List.length] in *.
      destruct (IH rest' ltac:(lia)) as [Hle Hall].
      cbn [Nat.add firstn]. split; [lia|].
      repeat constructor;
        [exact (hex_no_space h1 Hh1)|exact (hex_no_space h2 Hh2)|exact Hall].
Qed.

End PatternFacts.

(** X15: what the pattern of [tokenize] finds.  Every URL returned by
    [findall] is a substring of the text, begins with ["http://"] or
    ["https://"], goes on for at least one more character after that
    scheme and contains no white space. *)
Theorem findall_urls (text u : string) :
  In u (Url.findall text) ->
  Str.contains u text = true
  /\ (Str.is_prefix (Str.chars "http://") (Str.chars u) = true
      /\ (String.length "http://" < String.length u)%nat
      \/ Str.is_prefix (Str.chars "https://") (Str.chars u) = true
         /\ (String.length "https://" < String.length u)%nat)
  /\ Forall (fun c => Str.is_space c = false) (Str.chars u).
Proof.
  unfold Url.findall. intros Hu.
  apply in_map_iff in Hu as (cs & <- & Hcs).
  apply PatternFacts.findall_from_in in Hcs as (pre & suf & n & Htext & Hm & ->).
  rewrite <- !(UrlFacts.length_chars (Str.of_chars _)). unfold Str.contains.
  rewrite StrFacts.chars_of_chars, Htext.
  split.
  { apply StrFacts.contains_chars_app_r, StrFacts.is_prefix_contains,
      StrFacts.is_prefix_firstn. }
  apply PatternFacts.match_at_some in Hm as (scheme & Hscheme & Hp & -> & Hpos).
  pose proof (PatternFacts.is_prefix_split _ _ Hp) as Hsplit.
  rewrite UrlFacts.length_chars in Hsplit.
  set (rest := skipn (String.length scheme) suf) in *.
  destruct (PatternFacts.url_run_bounded (List.length rest) rest
              (Nat.le_refl _)) as [Hle Hall].
  assert (Hu : firstn (String.length scheme + Url.url_run rest) suf
               = Str.chars scheme ++ firstn (Url.url_run rest) rest).
  { rewrite Hsplit at 1. rewrite <- (UrlFacts.length_chars scheme).
    apply firstn_app_2. }
  rewrite Hu. clear Hu.
  assert (Hlen : (List.length (Str.chars scheme)
                  < List.length (Str.chars scheme
                                 ++ firstn (Url.url_run rest) rest))%nat).
  { rewrite length_app, length_firstn. lia. }
  split.
  - destruct Hscheme as [->| ->]; [right|left];
      (split; [apply StrFacts.is_prefix_refl_app|exact Hlen]).
  - apply List.Forall_app. split; [|exact Hall].
    destruct Hscheme as [->| ->]; repeat constructor.
Qed.

Lemma findall_urls_witness :
  Str.contains "https://example.com/path" "see https://example.com/path now"
    = true
  /\ Forall (fun c => Str.is_space c = false)
            (Str.chars "https://example.com/path").
Proof.
  destruct (findall_urls "see https://example.com/path now"
              "https://example.com/path") as (Hsub & _ & Hall).
  - left. reflexivity.
  - split; [exact Hsub|exact Hall].
Defined.

(** The scheme alone is not a URL. *)
Example findall_bare_scheme :
  Url.findall "https:// and http:// alone" = [].
Proof. reflexivity. Qed.

(** ** The outcome of [starting_verb] *)

Module VerbFacts.
Import Spec TrainClassifier.

Section WithToolkit.

Variable word_tokenize : string -> list string.
Variable lemmatize : string -> string.
Variable pos_tag : list string -> list (string * string).

Let loop := starting_verb_loop word_tokenize lemmatize pos_tag.
Let tags (s : string) := pos_tag (tokenize word_tokenize lemmatize s).

Lemma head_cases (s : string) :
  tags s = [] \/ starts_with_verb (tags s) \/ starts_otherwise (tags s).
Proof.
  destruct (tags s) as [|[w t] r]; [left; reflexivity|right].
  destruct (string_dec t "VB") as [Hvb|Hvb];
    [left; exists w, t, r; tauto|].
  destruct (string_dec t "VBP") as [Hvbp|Hvbp];
    [left; exists w, t, r; tauto|].
  destruct (string_dec w "RT") as [Hrt|Hrt];
    [left; exists w, t, r; tauto|].
  right. exists w, t, r. tauto.
Qed.

Lemma verb_not_otherwise (t : list (string * string)) :
  starts_with_verb t -> starts_otherwise t -> False.
Proof.
  intros (w & g & r & -> & Hv) (w' & g' & r' & Heq & H1 & H2 & H3).
  injection Heq as <- <- _. tauto.
Qed.

Lemma loop_verb (s : string) (rest : list string) :
  starts_with_verb (tags s) -> loop (s :: rest) = Ok true.
Proof.
  intros (w & t & r & Ht & Hcase). unfold loop, tags in *.
  cbn [starting_verb_loop]. rewrite Ht. cbn [existsb].
  destruct Hcase as [->|[->| ->]].
  - reflexivity.
  - reflexivity.
  - rewrite String.eqb_refl, orb_true_r. reflexivity.
Qed.

Lemma loop_otherwise (s : string) (rest : list string) :
  starts_otherwise (tags s) -> loop (s :: rest) = loop rest.
Proof.
  intros (w & t & r & Ht & H1 & H2 & H3). unfold loop, tags in *.
  cbn [starting_verb_loop]. rewrite Ht. cbn [existsb].
  apply String.eqb_neq in H1, H2, H3. rewrite H1, H2, H3. reflexivity.
Qed.

Lemma loop_no_tags (s : string) (rest : list string) :
  tags s = [] -> loop (s :: rest) = Raise IndexError.
Proof.
  intros Ht. unfold loop, tags in *. cbn [starting_verb_loop].
  rewrite Ht. reflexivity.
Qed.

Lemma loop_skip (pre l : list string) :
  Forall (fun s => starts_otherwise (tags s)) pre ->
  loop (pre ++ l) = loop l.
Proof.
  induction 1 as [|s pre Hs _ IH]; [reflexivity|].
  cbn [app]. rewrite (loop_otherwise s _ Hs). exact IH.
Qed.

Lemma loop_all_otherwise (l : list string) :
  Forall (fun s => starts_otherwise (tags s)) l -> loop l = Ok false.
Proof.
  intros H. rewrite <- (app_nil_r l). rewrite (loop_skip l [] H).
  reflexivity.
Qed.

(** The first sentence that does not start otherwise decides. *)
Lemma first_deciding_sentence (l : list string) :
  Forall (fun s => starts_otherwise (tags s)) l
  \/ exists pre s post,
       l = pre ++ s :: post
       /\ Forall (fun s' => starts_otherwise (tags s')) pre
       /\ (starts_with_verb (tags s) \/ tags s = []).
Proof.
  induction l as [|a l IH]; [left; constructor|].
  destruct (head_cases a) as [Ha|[Ha|Ha]].
  - right. exists [], a, l. repeat split; [constructor|right; exact Ha].
  - right. exists [], a, l. repeat split; [constructor|left; exact Ha].
  - destruct IH as [IH|(pre & s & post & -> & Hpre & Hs)].
    + left. constructor; assumption.
    + right. exists (a :: pre), s, post.
      repeat split; [constructor; assumption|exact Hs].
Qed.

End WithToolkit.

End VerbFacts.

(** X16: the three outcomes of [starting_verb], the toolkit functions
    being taken as functions that return.  Call a sentence deciding when
    its first tagged token is a verb ([VB] or [VBP]) or the word [RT], or
    when it has no tagged token at all.  The answer is [True] exactly when
    the first deciding sentence starts with a verb or [RT] (later
    sentences are not looked at, also not ones without tokens); it is
    [False] exactly when no sentence is deciding; and the function raises
    exactly when the first deciding sentence has no tagged token, the
    exception being [IndexError]. *)
Theorem starting_verb_outcomes
  (word_tokenize : string -> list string) (lemmatize : string -> string)
  (sent_tokenize : string -> list string)
  (pos_tag : list string -> list (string * string)) (text : string) :
  let tags := fun s =>
    pos_tag (TrainClassifier.tokenize word_tokenize lemmatize s) in
  let result :=
    TrainClassifier.starting_verb word_tokenize lemmatize sent_tokenize
      pos_tag text in
  let first_deciding (decides : list (string * string) -> Prop) :=
    exists pre s post,
      sent_tokenize text = pre ++ s :: post
      /\ Forall (fun s' => Spec.starts_otherwise (tags s')) pre
      /\ decides (tags s) in
  (result = Ok true <-> first_deciding Spec.starts_with_verb)
  /\ (result = Ok false
      <-> Forall (fun s => Spec.starts_otherwise (tags s))
                 (sent_tokenize text))
  /\ (forall e, result = Raise e
                <-> e = IndexError /\ first_deciding (fun t => t = [])).
Proof.
  intros tags result first_deciding.
  unfold result, TrainClassifier.starting_verb.
  assert (Hverb : first_deciding Spec.starts_with_verb ->
            TrainClassifier.starting_verb_loop word_tokenize lemmatize
              pos_tag (sent_tokenize text) = Ok true).
  { intros (pre & s & post & -> & Hpre & Hs).
    rewrite (VerbFacts.loop_skip _ _ _ _ _ Hpre).
    exact (VerbFacts.loop_verb _ _ _ s post Hs). }
  assert (Hnone : first_deciding (fun t => t = []) ->
            TrainClassifier.starting_verb_loop word_tokenize lemmatize
              pos_tag (sent_tokenize text) = Raise IndexError).
  { intros (pre & s & post & -> & Hpre & Hs).
    rewrite (VerbFacts.loop_skip _ _ _ _ _ Hpre).
    exact (VerbFacts.loop_no_tags _ _ _ s post Hs). }
  pose proof (VerbFacts.loop_all_otherwise word_tokenize lemmatize pos_tag
                (sent_tokenize text)) as Hall.
  destruct (VerbFacts.first_deciding_sentence word_tokenize lemmatize pos_tag
              (sent_tokenize text))
    as [Hcase|(pre & s & post & Hsplit & Hpre & [Hs|Hs])].
  - (* no deciding sentence *)
    rewrite (Hall Hcase). split; [|split].
    + split; [discriminate|]. intros H. rewrite (Hverb H) in Hall.
      specialize (Hall Hcase). discriminate.
    + split; [intros _; exact Hcase|reflexivity].
    + intros e. split; [discriminate|]. intros [_ H].
      rewrite (Hnone H) in Hall. specialize (Hall Hcase). discriminate.
  - (* the first deciding sentence starts with a verb *)
    assert (Hfd : first_deciding Spec.starts_with_verb)
      by (exists pre, s, post; tauto).
    rewrite (Hverb Hfd). split; [|split].
    + split; [intros _; exact Hfd|reflexivity].
    + split; [discriminate|]. intros H. rewrite (Hall H) in Hverb.
      specialize (Hverb Hfd). discriminate.
    + intros e. split; [discriminate|]. intros [_ H].
      rewrite (Hnone H) in Hverb. specialize (Hverb Hfd). discriminate.
  - (* the first deciding sentence has no tagged token *)
    assert (Hfd : first_deciding (fun t => t = []))
      by (exists pre, s, post; tauto).
    rewrite (Hnone Hfd). split; [|split].
    + split; [discriminate|]. intros H. rewrite (Hverb H) in Hnone.
      specialize (Hnone Hfd). discriminate.
    + split; [discriminate|]. intros H. rewrite (Hall H) in Hnone.
      specialize (Hnone Hfd). discriminate.
    + intros e. split.
      * intros H. injection H as <-. split; [reflexivity|exact Hfd].
      * intros [-> _]. reflexivity.
Qed.

(** A verb before a sentence without tokens answers [True]; the same
    sentences in the other order raise; and a leading [RT] has become
    [rt] in [tokenize] before the test sees it. *)
Example starting_verb_short_circuit :
  TrainClassifier.starting_verb Toy.word_tokenize Toy.lemmatize
    (fun _ => ["the road is closed"; "run now"; "   "]) Toy.pos_tag
    "any text" = Ok true
  /\ TrainClassifier.starting_verb Toy.word_tokenize Toy.lemmatize
       (fun _ => ["the road is closed"; "   "; "run now"]) Toy.pos_tag
       "any text" = Raise IndexError
  /\ TrainClassifier.starting_verb Toy.word_tokenize Toy.no_lemmatize
       (fun _ => ["RT please help"]) Toy.pos_tag "any text" = Ok false.
Proof. repeat split. Qed.

(** X17: the test [first_word == 'RT'] cannot succeed.  [tokenize] has
    lower-cased every token, so when the tagger returns the tokens it was
    given as the words of its pairs (as a tagger does), no first word is
    [RT]: whenever [starting_verb] answers [True], some sentence of the
    text has [VB] or [VBP] as its first tag. *)
Theorem starting_verb_true_only_by_tag
  (word_tokenize : string -> list string) (lemmatize : string -> string)
  (sent_tokenize : string -> list string)
  (pos_tag : list string -> list (string * string)) (text : string) :
  (forall toks, map fst (pos_tag toks) = toks) ->
  TrainClassifier.starting_verb word_tokenize lemmatize sent_tokenize
    pos_tag text = Ok true ->
  exists s first_word first_tag rest,
    In s (sent_tokenize text)
    /\ pos_tag (TrainClassifier.tokenize word_tokenize lemmatize s)
       = (first_word, first_tag) :: rest
    /\ (first_tag = "VB" \/ first_tag = "VBP")
    /\ first_word <> "RT".
Proof.
  intros Hwords. unfold TrainClassifier.starting_verb. intros Htrue.
  destruct (VerbFacts.first_deciding_sentence word_tokenize lemmatize pos_tag
              (sent_tokenize text))
    as [Hcase|(pre & s & post & Hsplit & Hpre & [Hs|Hs])].
  - rewrite (VerbFacts.loop_all_otherwise _ _ _ _ Hcase) in Htrue.
    discriminate.
  - destruct Hs as (w & t & r & Ht & Hcase).
    assert (Hw : w <> "RT").
    { intros ->.
      assert (Hin : In "RT"
                (TrainClassifier.tokenize word_tokenize lemmatize s)).
      { rewrite <- (Hwords (TrainClassifier.tokenize word_tokenize
                              lemmatize s)), Ht.
        left. reflexivity. }
      unfold TrainClassifier.tokenize in Hin.
      apply in_map_iff in Hin as (raw & Hraw & _).
      pose proof (TokenFacts.strip_lower_is_lower (lemmatize raw)) as Hlow.
      unfold TrainClassifier.clean_tok in Hraw. rewrite Hraw in Hlow.
      unfold Spec.is_lower in Hlow.
      change (Str.chars "RT") with ["R"%char; "T"%char] in Hlow.
      inversion Hlow as [|c l Hc _]. apply Hc.
      change (nat_of_ascii "R") with 82%nat. lia. }
    exists s, w, t, r. split; [|split; [exact Ht|split; [tauto|exact Hw]]].
    rewrite Hsplit. apply in_or_app. right. left. reflexivity.
  - rewrite Hsplit, (VerbFacts.loop_skip _ _ _ _ _ Hpre) in Htrue.
    rewrite (VerbFacts.loop_no_tags _ _ _ s post Hs) in Htrue.
    discriminate.
Qed.

Lemma starting_verb_true_only_by_tag_witness :
  exists s first_word first_tag rest,
    In s (Toy.sent_tokenize "Run to the store.")
    /\ Toy.pos_tag
         (TrainClassifier.tokenize Toy.word_tokenize Toy.lemmatize s)
       = (first_word, first_tag) :: rest
    /\ (first_tag = "VB" \/ first_tag = "VBP")
    /\ first_word <> "RT".
Proof.
  apply (starting_verb_true_only_by_tag Toy.word_tokenize Toy.lemmatize
           Toy.sent_tokenize Toy.pos_tag "Run to the store.").
  - intros toks. unfold Toy.pos_tag. rewrite map_map. apply map_id.
  - reflexivity.
Defined.

(** ** [transform] over a sequence of texts *)

Module TransformFacts.

Lemma for_each_Forall2 {A B : Type} (f : A -> result B) (xs : list A)
  (ys : list B) :
  Forall2 (fun x y => f x = Ok y) xs ys -> for_each f xs = Ok ys.
Proof.
  induction 1 as [|x y xs ys Hxy _ IH]; [reflexivity|].
  cbn [for_each]. rewrite Hxy. cbn [bind]. rewrite IH. reflexivity.
Qed.

Lemma for_each_raise {A B : Type} (f : A -> result B) (xs : list A)
  (e : exn) :
  for_each f xs = Raise e ->
  exists pre x post,
    xs = pre ++ x :: post
    /\ Forall (fun x' => exists y, f x' = Ok y) pre
    /\ f x = Raise e.
Proof.
  induction xs as [|a xs IH]; cbn [for_each]; [discriminate|].
  destruct (f a) as [y|e'] eqn:Ha; cbn [bind].
  - destruct (for_each f xs) as [ys|e''] eqn:Hxs; cbn [bind];
      [discriminate|].
    intros H. injection H as ->.
    destruct (IH eq_refl) as (pre & x & post & -> & Hpre & Hx).
    exists (a :: pre), x, post. repeat split; [|exact Hx].
    constructor; [eauto|exact Hpre].
  - intros H. injection H as ->.
    exists [], a, xs. repeat split; [constructor|exact Ha].
Qed.

End TransformFacts.

(** X18: [transform] applies [starting_verb] to every text in order.  It
    returns booleans exactly when every text has an answer, one boolean
    per text; otherwise it raises the [IndexError] of the first text that
    has a sentence without a tagged token before any sentence that starts
    with a verb, and the texts after it are not looked at. *)
Theorem transform_outcomes
  (word_tokenize : string -> list string) (lemmatize : string -> string)
  (sent_tokenize : string -> list string)
  (pos_tag : list string -> list (string * string)) (X : list string) :
  let starting_verb :=
    TrainClassifier.starting_verb word_tokenize lemmatize sent_tokenize
      pos_tag in
  let transform :=
    TrainClassifier.transform word_tokenize lemmatize sent_tokenize pos_tag in
  (forall bs, transform X = Ok bs
              <-> Forall2 (fun text b => starting_verb text = Ok b) X bs)
  /\ (forall e, transform X = Raise e ->
        e = IndexError
        /\ exists pre text post,
             X = pre ++ text :: post
             /\ Forall (fun t => exists b, starting_verb t = Ok b) pre
             /\ starting_verb text = Raise IndexError).
Proof.
  intros starting_verb transform. unfold transform, TrainClassifier.transform.
  fold starting_verb. split.
  - intros bs. split.
    + apply PyFacts.for_each_ok.
    + apply TransformFacts.for_each_Forall2.
  - intros e H.
    apply TransformFacts.for_each_raise in H
      as (pre & text & post & -> & Hpre & Htext).
    assert (He : e = IndexError).
    { unfold starting_verb, TrainClassifier.starting_verb in Htext.
      destruct (VerbFacts.first_deciding_sentence word_tokenize lemmatize
                  pos_tag (sent_tokenize text))
        as [Hcase|(p & s & q & Hsplit & Hp & [Hs|Hs])].
      - rewrite (VerbFacts.loop_all_otherwise _ _ _ _ Hcase) in Htext.
        discriminate.
      - rewrite Hsplit, (VerbFacts.loop_skip _ _ _ _ _ Hp) in Htext.
        rewrite (VerbFacts.loop_verb _ _ _ s q Hs) in Htext. discriminate.
      - rewrite Hsplit, (VerbFacts.loop_skip _ _ _ _ _ Hp) in Htext.
        rewrite (VerbFacts.loop_no_tags _ _ _ s q Hs) in Htext.
        injection Htext as <-. reflexivity. }
    subst e. split; [reflexivity|].
    exists pre, text, post. repeat split; assumption.
Qed.

Example transform_stops_at_first_error :
  TrainClassifier.transform Toy.word_tokenize Toy.lemmatize
    Toy.sent_tokenize Toy.pos_tag ["run now"; "   "; "the road"]
  = Raise IndexError
  /\ TrainClassifier.transform Toy.word_tokenize Toy.lemmatize
       Toy.sent_tokenize Toy.pos_tag ["run now"; ""; "the road"]
     = Ok [true; false; false].
Proof. repeat split. Qed.
